(** * HttpService: a shallow embedding of the UE4 HTTP tutorial service

    The development follows [HttpService.h] and its implementation file:
    the two wire structs, the [AHttpService] actor with its request
    builders, the response validator, the struct/JSON marshalling
    templates and the login flow.  Engine code the service calls
    ([EHttpResponseCodes], [FJsonObjectConverter], [IHttpRequest]) is not
    part of the repository; it is modelled from the specification in the
    modules of the first half of the file. *)

From Stdlib Require Import ZArith Ascii String List Bool Lia.
From Stdlib Require Import DecimalString DecimalZ DecimalPos.
From stdpp Require Import gmap strings.

Set Warnings "-register-all".

Local Open Scope Z_scope.

(** ** Engine types *)

(** [int32]: the width of [int] members and of HTTP response codes. *)
Module Int32.

Definition modulus : Z := 4294967296.
Definition min_signed : Z := -2147483648.
Definition max_signed : Z := 2147483647.

Definition in_range (z : Z) : Prop := min_signed <= z <= max_signed.

(** Two's-complement truncation of an arbitrary integer. *)
Definition wrap (z : Z) : Z := (z - min_signed) mod modulus + min_signed.

End Int32.

(** ** JSON text *)

Module Json.

(** Modelled from the spec: the engine's Json module is not in the
    repository.  A value is one of the six JSON kinds.  A number written
    as an integer literal is [JNumber]; a number written with a fraction
    or an exponent is [JDecimal], standing for [mantissa * 10 ^ exponent].
    Strings hold the UTF-8 bytes of their text. *)
Inductive FJsonValue : Type :=
| JNull
| JBoolean (b : bool)
| JNumber (n : Z)
| JString (s : string)
| JArray (elems : list FJsonValue)
| JObject (fields : list (string * FJsonValue))
| JDecimal (mantissa exponent : Z).

(** *** Writer *)

Definition escape_char (c : ascii) : string :=
  if Ascii.eqb c "034" then String "092" (String "034" "")
  else if Ascii.eqb c "092" then "\\"
  else if Ascii.eqb c "010" then "\n"
  else if Ascii.eqb c "013" then "\r"
  else if Ascii.eqb c "009" then "\t"
  else if Ascii.eqb c "008" then "\b"
  else if Ascii.eqb c "012" then "\f"
  else String c "".

Fixpoint escape (s : string) : string :=
  match s with
  | EmptyString => ""
  | String c t => escape_char c +:+ escape t
  end.

Definition quote (s : string) : string :=
  String "034" (escape s +:+ String "034" "").

Definition write_number (n : Z) : string :=
  NilZero.string_of_int (Z.to_int n).

Fixpoint join (sep : string) (parts : list string) : string :=
  match parts with
  | [] => ""
  | [p] => p
  | p :: ps => p +:+ sep +:+ join sep ps
  end.

(** Modelled from the spec: the JSON writer of the engine, as the compact
    text of a value (spec section 4.1, "canonical JSON string"). *)
Fixpoint write (v : FJsonValue) : string :=
  match v with
  | JNull => "null"
  | JBoolean true => "true"
  | JBoolean false => "false"
  | JNumber n => write_number n
  | JString s => quote s
  | JArray elems => "[" +:+ join "," (map write elems) +:+ "]"
  | JObject fields =>
      "{" +:+ join "," (map (fun '(k, v) => quote k +:+ ":" +:+ write v) fields)
          +:+ "}"
  | JDecimal m e => write_number m +:+ "e" +:+ write_number e
  end.

(** *** Reader *)

Definition is_space (c : ascii) : bool :=
  Ascii.eqb c " " || Ascii.eqb c "009" || Ascii.eqb c "010" || Ascii.eqb c "013".

Fixpoint skip_ws (s : string) : string :=
  match s with
  | String c t => if is_space c then skip_ws t else s
  | EmptyString => s
  end.

Definition unescape_char (c : ascii) : option ascii :=
  if Ascii.eqb c "034" then Some "034"%char
  else if Ascii.eqb c "092" then Some "092"%char
  else if Ascii.eqb c "/" then Some "/"%char
  else if Ascii.eqb c "n" then Some "010"%char
  else if Ascii.eqb c "r" then Some "013"%char
  else if Ascii.eqb c "t" then Some "009"%char
  else if Ascii.eqb c "b" then Some "008"%char
  else if Ascii.eqb c "f" then Some "012"%char
  else None.

(** The value of a hexadecimal digit. *)
Definition hex_value (c : ascii) : option Z :=
  let n := Z.of_nat (nat_of_ascii c) in
  if (48 <=? n) && (n <=? 57) then Some (n - 48)
  else if (97 <=? n) && (n <=? 102) then Some (n - 87)
  else if (65 <=? n) && (n <=? 70) then Some (n - 55)
  else None.

Definition read_hex4 (h1 h2 h3 h4 : ascii) : option Z :=
  match hex_value h1, hex_value h2, hex_value h3, hex_value h4 with
  | Some a, Some b, Some c, Some d => Some (((a * 16 + b) * 16 + c) * 16 + d)
  | _, _, _, _ => None
  end.

Definition byte (z : Z) : ascii := ascii_of_nat (Z.to_nat z).

(** The UTF-8 bytes of a code point. *)
Definition utf8 (cp : Z) : string :=
  if cp <? 128 then String (byte cp) ""
  else if cp <? 2048 then
    String (byte (192 + cp / 64)) (String (byte (128 + cp mod 64)) "")
  else if cp <? 65536 then
    String (byte (224 + cp / 4096))
      (String (byte (128 + (cp / 64) mod 64))
         (String (byte (128 + cp mod 64)) ""))
  else
    String (byte (240 + cp / 262144))
      (String (byte (128 + (cp / 4096) mod 64))
         (String (byte (128 + (cp / 64) mod 64))
            (String (byte (128 + cp mod 64)) ""))).

(** What a string literal is made of: bytes, written as they are or with
    a one-letter escape, and 16-bit units written with the [u] escape and
    four hexadecimal digits. *)
Inductive Piece : Type :=
| Byte (c : ascii)
| Unit16 (u : Z).

Definition is_high_surrogate (u : Z) : bool := (55296 <=? u) && (u <=? 56319).
Definition is_low_surrogate (u : Z) : bool := (56320 <=? u) && (u <=? 57343).

(** The text of a literal: a surrogate pair is one code point. *)
Fixpoint assemble (ps : list Piece) : string :=
  match ps with
  | [] => ""
  | Byte c :: ps' => String c (assemble ps')
  | Unit16 hi :: ps' =>
      match ps' with
      | Unit16 lo :: ps'' =>
          if is_high_surrogate hi && is_low_surrogate lo
          then utf8 (65536 + (hi - 55296) * 1024 + (lo - 56320)) +:+ assemble ps''
          else utf8 hi +:+ assemble ps'
      | _ => utf8 hi +:+ assemble ps'
      end
  end.

(** Pieces of a string literal after its opening quote, up to and
    including the closing quote. *)
Fixpoint read_pieces (s : string) : option (list Piece * string) :=
  match s with
  | EmptyString => None
  | String c t =>
      if Ascii.eqb c "034" then Some ([], t)
      else if Ascii.eqb c "092" then
        match t with
        | String e t' =>
            if Ascii.eqb e "u" then
              match t' with
              | String h1 (String h2 (String h3 (String h4 t''))) =>
                  match read_hex4 h1 h2 h3 h4, read_pieces t'' with
                  | Some u, Some (ps, rest) => Some (Unit16 u :: ps, rest)
                  | _, _ => None
                  end
              | _ => None
              end
            else
              match unescape_char e, read_pieces t' with
              | Some c', Some (ps, rest) => Some (Byte c' :: ps, rest)
              | _, _ => None
              end
        | EmptyString => None
        end
      else
        match read_pieces t with
        | Some (ps, rest) => Some (Byte c :: ps, rest)
        | None => None
        end
  end.

(** Characters of a string literal after its opening quote, up to and
    including the closing quote. *)
Definition read_chars (s : string) : option (string * string) :=
  match read_pieces s with
  | Some (ps, rest) => Some (assemble ps, rest)
  | None => None
  end.

Definition read_string (s : string) : option (string * string) :=
  match s with
  | String c t => if Ascii.eqb c "034" then read_chars t else None
  | EmptyString => None
  end.

Definition is_digit (c : ascii) : bool :=
  match uint_of_char c (Some Decimal.Nil) with
  | Some _ => true
  | None => false
  end.

Fixpoint span_digits (s : string) : string * string :=
  match s with
  | String c t =>
      if is_digit c then let '(ds, rest) := span_digits t in (String c ds, rest)
      else ("", s)
  | EmptyString => ("", s)
  end.

Definition read_number (s : string) : option (Z * string) :=
  match s with
  | String c t =>
      if Ascii.eqb c "-" then
        let '(ds, rest) := span_digits t in
        match NilZero.uint_of_string ds with
        | Some u => Some (Z.of_int (Decimal.Neg u), rest)
        | None => None
        end
      else
        let '(ds, rest) := span_digits s in
        match NilZero.uint_of_string ds with
        | Some u => Some (Z.of_int (Decimal.Pos u), rest)
        | None => None
        end
  | EmptyString => None
  end.

(** Digits without a sign, at least one. *)
Definition read_unsigned (s : string) : option (Z * string) :=
  let '(ds, rest) := span_digits s in
  match NilZero.uint_of_string ds with
  | Some u => Some (Z.of_uint u, rest)
  | None => None
  end.

(** The optional fraction of a number: its digits, when there is one. *)
Definition read_fraction (s : string) : option (option string * string) :=
  match s with
  | String c t =>
      if Ascii.eqb c "." then
        match span_digits t with
        | (EmptyString, _) => None
        | (ds, rest) => Some (Some ds, rest)
        end
      else Some (None, s)
  | EmptyString => Some (None, s)
  end.

(** The optional exponent of a number. *)
Definition read_exponent (s : string) : option (option Z * string) :=
  match s with
  | String c t =>
      if Ascii.eqb c "e" || Ascii.eqb c "E" then
        match t with
        | String g t' =>
            if Ascii.eqb g "+" then
              match read_unsigned t' with
              | Some (x, rest) => Some (Some x, rest)
              | None => None
              end
            else if Ascii.eqb g "-" then
              match read_unsigned t' with
              | Some (x, rest) => Some (Some (- x), rest)
              | None => None
              end
            else
              match read_unsigned t with
              | Some (x, rest) => Some (Some x, rest)
              | None => None
              end
        | EmptyString => None
        end
      else Some (None, s)
  | EmptyString => Some (None, s)
  end.

(** The digits of a fraction as a number. *)
Definition fraction_value (ds : string) : Z :=
  match NilEmpty.uint_of_string ds with
  | Some u => Z.of_uint u
  | None => 0
  end.

(** A number: an integer part, then an optional fraction and an optional
    exponent. *)
Definition read_numeric (s : string) : option (FJsonValue * string) :=
  match read_number s with
  | None => None
  | Some (n, s1) =>
      match read_fraction s1 with
      | None => None
      | Some (frac, s2) =>
          match read_exponent s2 with
          | None => None
          | Some (ex, s3) =>
              match frac, ex with
              | None, None => Some (JNumber n, s3)
              | _, _ =>
                  let negative :=
                    match s with
                    | String c _ => Ascii.eqb c "-"
                    | EmptyString => false
                    end in
                  let ds := match frac with Some ds => ds | None => "" end in
                  let k := Z.of_nat (String.length ds) in
                  let magnitude := Z.abs n * 10 ^ k + fraction_value ds in
                  let x := match ex with Some x => x | None => 0 end in
                  Some (JDecimal (if negative then - magnitude else magnitude)
                                 (x - k), s3)
              end
          end
      end
  end.

Fixpoint strip_prefix (p s : string) : option string :=
  match p, s with
  | EmptyString, _ => Some s
  | String a p', String b s' => if Ascii.eqb a b then strip_prefix p' s' else None
  | String _ _, EmptyString => None
  end.

(** The next character after white space, when it is the expected one. *)
Definition expect (c : ascii) (s : string) : option string :=
  match skip_ws s with
  | String d t => if Ascii.eqb d c then Some t else None
  | EmptyString => None
  end.

(** One step of fuel is spent per value, per object member and per array
    element; [read] supplies the length of the text. *)
Fixpoint read_value (fuel : nat) (s : string) {struct fuel}
  : option (FJsonValue * string) :=
  match fuel with
  | O => None
  | S fuel =>
      match skip_ws s with
      | EmptyString => None
      | String c t as w =>
          if Ascii.eqb c "{" then
            match expect "}" t with
            | Some rest => Some (JObject [], rest)
            | None =>
                match read_members fuel t with
                | Some (fs, rest) => Some (JObject fs, rest)
                | None => None
                end
            end
          else if Ascii.eqb c "[" then
            match expect "]" t with
            | Some rest => Some (JArray [], rest)
            | None =>
                match read_elements fuel t with
                | Some (vs, rest) => Some (JArray vs, rest)
                | None => None
                end
            end
          else if Ascii.eqb c "034" then
            match read_chars t with
            | Some (str, rest) => Some (JString str, rest)
            | None => None
            end
          else if Ascii.eqb c "t" then
            match strip_prefix "rue" t with
            | Some rest => Some (JBoolean true, rest)
            | None => None
            end
          else if Ascii.eqb c "f" then
            match strip_prefix "alse" t with
            | Some rest => Some (JBoolean false, rest)
            | None => None
            end
          else if Ascii.eqb c "n" then
            match strip_prefix "ull" t with
            | Some rest => Some (JNull, rest)
            | None => None
            end
          else read_numeric w
      end
  end

with read_members (fuel : nat) (s : string) {struct fuel}
  : option (list (string * FJsonValue) * string) :=
  match fuel with
  | O => None
  | S fuel =>
      match read_string (skip_ws s) with
      | Some (k, s1) =>
          match expect ":" s1 with
          | Some s2 =>
              match read_value fuel s2 with
              | Some (v, s3) =>
                  match expect "," s3 with
                  | Some s4 =>
                      match read_members fuel s4 with
                      | Some (fs, rest) => Some ((k, v) :: fs, rest)
                      | None => None
                      end
                  | None =>
                      match expect "}" s3 with
                      | Some rest => Some ([(k, v)], rest)
                      | None => None
                      end
                  end
              | None => None
              end
          | None => None
          end
      | None => None
      end
  end

with read_elements (fuel : nat) (s : string) {struct fuel}
  : option (list FJsonValue * string) :=
  match fuel with
  | O => None
  | S fuel =>
      match read_value fuel s with
      | Some (v, s1) =>
          match expect "," s1 with
          | Some s2 =>
              match read_elements fuel s2 with
              | Some (vs, rest) => Some (v :: vs, rest)
              | None => None
              end
          | None =>
              match expect "]" s1 with
              | Some rest => Some ([v], rest)
              | None => None
              end
          end
      | None => None
      end
  end.

(** Modelled from the spec: the JSON reader of the engine.  A whole
    document is one value, then nothing but white space; any other text is
    malformed ([None]). *)
Definition read (s : string) : option FJsonValue :=
  match read_value (S (String.length s)) s with
  | Some (v, rest) =>
      match skip_ws rest with
      | EmptyString => Some v
      | _ => None
      end
  | None => None
  end.

(** [FJsonObject::TryGetField]: the member stored under a name; of two
    members with one name the later one in the text is kept. *)
Fixpoint TryGetField (fields : list (string * FJsonValue)) (name : string)
  : option FJsonValue :=
  match fields with
  | [] => None
  | (k, v) :: rest =>
      match TryGetField rest name with
      | Some v' => Some v'
      | None => if String.eqb k name then Some v else None
      end
  end.

(** *** Shapes of text used to state the reader's contract *)

(** The values a reflected member is written as. *)
Definition scalar (v : FJsonValue) : Prop :=
  match v with
  | JNumber _ | JString _ => True
  | _ => False
  end.

Definition write_member (m : string * FJsonValue) : string :=
  quote (fst m) +:+ ":" +:+ write (snd m).

(** The text after a number does not continue it. *)
Definition delimited (rest : string) : Prop :=
  match rest with
  | String c _ =>
      is_digit c || Ascii.eqb c "." || Ascii.eqb c "e" || Ascii.eqb c "E" = false
  | EmptyString => True
  end.

(** A number starts with a digit or with the sign. *)
Definition number_head (c : ascii) : Prop :=
  is_digit c = true \/ c = "-"%char.

End Json.

(** Test texts are written with apostrophes where JSON has double quotes. *)
Fixpoint json_text (s : string) : string :=
  match s with
  | EmptyString => EmptyString
  | String c t => String (if Ascii.eqb c "'" then "034"%char else c) (json_text t)
  end.

(** ** Reflected structs *)

Module UStruct.

(** Modelled from the spec: [USTRUCT()] / [UPROPERTY()] reflection is
    generated by the engine's header tool.  A reflected struct lists its
    members in declaration order, each with its name and typed accessors;
    the members of the wire structs are [int]s and strings. *)
Inductive UProperty (T : Type) : Type :=
| FIntProperty (get : T -> Z) (set : Z -> T -> T)
| FStrProperty (get : T -> string) (set : string -> T -> T).

Arguments FIntProperty {T} get set.
Arguments FStrProperty {T} get set.

Class UScriptStruct (T : Type) : Type :=
  StaticStruct : list (string * UProperty T).

End UStruct.

Module FJsonObjectConverter.
Import Json UStruct.

(** Modelled from the spec: [FJsonObjectConverter] of the engine's
    JsonUtilities module (spec section 4.1).  Encoding writes every member;
    decoding fills the members that are present with a value of the
    member's kind and leaves every other member of the output as it was. *)
Definition UPropertyToJsonValue {T} (p : UProperty T) (x : T) : FJsonValue :=
  match p with
  | FIntProperty get _ => JNumber (get x)
  | FStrProperty get _ => JString (get x)
  end.

Definition UStructToJsonObject {T} `{UScriptStruct T} (x : T)
  : list (string * FJsonValue) :=
  map (fun '(name, p) => (name, UPropertyToJsonValue p x)) StaticStruct.

(** Modelled from the spec: [encode] of spec section 4.1; it cannot fail. *)
Definition UStructToJsonObjectString {T} `{UScriptStruct T} (x : T) : string :=
  write (JObject (UStructToJsonObject x)).

(** The integer a number written with a fraction or an exponent is taken
    as: the part before the decimal point. *)
Definition truncate (mantissa exponent : Z) : Z :=
  if 0 <=? exponent then mantissa * 10 ^ exponent
  else Z.quot mantissa (10 ^ (- exponent)).

(** A number read for an [int] member is truncated to 32 bits. *)
Definition JsonValueToUProperty {T} (v : FJsonValue) (p : UProperty T) (out : T) : T :=
  match p, v with
  | FIntProperty _ set, JNumber n => set (Int32.wrap n) out
  | FIntProperty _ set, JDecimal m e => set (Int32.wrap (truncate m e)) out
  | FStrProperty _ set, JString s => set s out
  | _, _ => out
  end.

Definition JsonObjectToUStruct {T} `{UScriptStruct T}
    (fields : list (string * FJsonValue)) (out : T) : T :=
  fold_left
    (fun acc '(name, p) =>
       match TryGetField fields name with
       | Some v => JsonValueToUProperty v p acc
       | None => acc
       end)
    StaticStruct out.

(** Modelled from the spec: [decode] of spec section 4.1.  Returns whether
    the text was a JSON object, and the output struct; on malformed text
    the output struct is returned as it was. *)
Definition JsonObjectStringToUStruct {T} `{UScriptStruct T}
    (JsonString : string) (out : T) : bool * T :=
  match read JsonString with
  | Some (JObject fields) => (true, JsonObjectToUStruct fields out)
  | _ => (false, out)
  end.

End FJsonObjectConverter.

(** ** HTTP objects *)

(** Modelled from the spec: the completion tuple of the transport contract
    (spec section 6) carries a status code and a body. *)
Record FHttpResponse : Type := {
  GetResponseCode : Z;
  GetContentAsString : string
}.

(** [FHttpResponsePtr]: a possibly null shared pointer; [IsValid] is
    [is_Some]. *)
Abbreviation FHttpResponsePtr := (option FHttpResponse).

(** The member function bound by [BindUObject]. *)
Inductive FHttpRequestCompleteDelegate : Type :=
| Unbound
| BindUObject_LoginResponse.

(** Modelled from the spec: the request object of the transport contract
    (spec section 6), with its URL, verb, headers, body and completion. *)
Record IHttpRequest : Type := {
  URL : string;
  Verb : string;
  Headers : gmap string string;
  Content : string;
  OnProcessRequestComplete : FHttpRequestCompleteDelegate
}.

(** The engine's HTTP module, a singleton reached through
    [FHttpModule::Get()]. *)
Inductive FHttpModule : Type :=
| FHttpModule_Get.

(** Modelled from the spec: [createRequest()] gives a request on which
    nothing has been set. *)
Definition CreateRequest (Http : FHttpModule) : IHttpRequest :=
  {| URL := ""; Verb := ""; Headers := ∅; Content := "";
     OnProcessRequestComplete := Unbound |}.

Definition SetURL (u : string) (r : IHttpRequest) : IHttpRequest :=
  {| URL := u; Verb := Verb r; Headers := Headers r; Content := Content r;
     OnProcessRequestComplete := OnProcessRequestComplete r |}.

Definition SetVerb (v : string) (r : IHttpRequest) : IHttpRequest :=
  {| URL := URL r; Verb := v; Headers := Headers r; Content := Content r;
     OnProcessRequestComplete := OnProcessRequestComplete r |}.

(** Modelled from the spec: [setHeader(name, value)]; a header set twice
    keeps the later value. *)
Definition SetHeader (name value : string) (r : IHttpRequest) : IHttpRequest :=
  {| URL := URL r; Verb := Verb r; Headers := <[name := value]> (Headers r);
     Content := Content r;
     OnProcessRequestComplete := OnProcessRequestComplete r |}.

Definition SetContentAsString (c : string) (r : IHttpRequest) : IHttpRequest :=
  {| URL := URL r; Verb := Verb r; Headers := Headers r; Content := c;
     OnProcessRequestComplete := OnProcessRequestComplete r |}.

Definition BindUObject (d : FHttpRequestCompleteDelegate) (r : IHttpRequest)
  : IHttpRequest :=
  {| URL := URL r; Verb := Verb r; Headers := Headers r; Content := Content r;
     OnProcessRequestComplete := d |}.

Module EHttpResponseCodes.

(** Modelled from the spec: the engine's [EHttpResponseCodes::IsOk] is not
    in the repository; spec section 4.4 gives it as the 200-299 range. *)
Definition IsOk (StatusCode : Z) : bool :=
  (200 <=? StatusCode) && (StatusCode <=? 299).

End EHttpResponseCodes.

(** ** HttpService.h *)

Record FRequest_Login : Type := {
  email : string;
  password : string
}.

Record FResponse_Login : Type := {
  id : Z;
  name : string;
  hash : string
}.

#[export] Instance FRequest_Login_StaticStruct : UStruct.UScriptStruct FRequest_Login :=
  [ ("email", UStruct.FStrProperty email
                (fun v x => {| email := v; password := password x |}));
    ("password", UStruct.FStrProperty password
                (fun v x => {| email := email x; password := v |})) ].

#[export] Instance FResponse_Login_StaticStruct : UStruct.UScriptStruct FResponse_Login :=
  [ ("id", UStruct.FIntProperty id
                (fun v x => {| id := v; name := name x; hash := hash x |}));
    ("name", UStruct.FStrProperty name
                (fun v x => {| id := id x; name := v; hash := hash x |}));
    ("hash", UStruct.FStrProperty hash
                (fun v x => {| id := id x; name := name x; hash := v |})) ].

(** [FRequest_Login() {}]: both members are default-constructed strings. *)
Definition FRequest_Login_ctor : FRequest_Login :=
  {| email := ""; password := "" |}.

(** [FResponse_Login() {}]: the strings are empty; the constructor has no
    initialiser for the [int] member, whose value is whatever the storage
    held ([indeterminate]). *)
Definition FResponse_Login_ctor (indeterminate : Z) : FResponse_Login :=
  {| id := indeterminate; name := ""; hash := "" |}.

(** The private data members of [AHttpService].  [Http] is a pointer to
    the engine's HTTP module; [None] is a pointer that has not been set. *)
Record AHttpService : Type := {
  Http : option FHttpModule;
  ApiBaseUrl : string;
  AuthorizationHeader : string;
  AuthorizationHash : string
}.

(** The default member initialisers of the class.  [Http] has none and the
    constructor does not assign it: it is unset until [BeginPlay] runs
    with authority. *)
Definition AHttpService_ctor : AHttpService :=
  {| Http := None;
     ApiBaseUrl := "http://murk.dev/api/";
     AuthorizationHeader := "Authorization";
     AuthorizationHash := "asdfasdf" |}.

(** ** Effects of the member functions *)

(** What a member function does besides returning: it may assign to a data
    member of the actor, and it may call into the engine.  The engine calls
    that matter to the contracts are recorded, in program order. *)
Inductive LogArg : Type :=
| ArgInt (d : Z)
| ArgStr (s : string).

Inductive Event : Type :=
| UE_LOG (Format : string) (arg : LogArg)
| JsonObjectStringToUStruct_call (JsonString : string)
| ProcessRequest (Request : IHttpRequest).

Record World : Type := {
  this : AHttpService;
  trace : list Event
}.

Definition M (A : Type) : Type := World -> A * World.

Definition ret {A} (a : A) : M A := fun w => (a, w).

Definition bind {A B} (c : M A) (k : A -> M B) : M B :=
  fun w => let '(a, w') := c w in k a w'.

Declare Scope service_scope.
Delimit Scope service_scope with service.
Notation "x <- c ;; k" := (bind c (fun x => k))
  (at level 100, c at next level, right associativity) : service_scope.
Notation "c ;; k" := (bind c (fun _ => k))
  (at level 100, right associativity) : service_scope.
Local Open Scope service_scope.

Definition self : M AHttpService := fun w => (this w, w).

Definition emit (e : Event) : M unit :=
  fun w => (tt, {| this := this w; trace := trace w ++ [e] |}).

Definition exec {A} (c : M A) (w : World) : World := snd (c w).
Definition eval {A} (c : M A) (w : World) : A := fst (c w).

(** A member function that goes through the [Http] pointer may fault: the
    pointer is dereferenced without a check.  A call either returns, with
    its result and the state it leaves, or faults, and the actor stops in
    the state it had reached. *)
Inductive Outcome (A : Type) : Type :=
| Returned (a : A) (w : World)
| Faulted (w : World).

Arguments Returned {A} a w.
Arguments Faulted {A} w.

Definition MF (A : Type) : Type := World -> Outcome A.

Definition retF {A} (a : A) : MF A := fun w => Returned a w.

Definition bindF {A B} (c : MF A) (k : A -> MF B) : MF B :=
  fun w =>
    match c w with
    | Returned a w' => k a w'
    | Faulted w' => Faulted w'
    end.

Definition fault {A} : MF A := fun w => Faulted w.

(** A member function that cannot fault, called from one that can. *)
Definition lift {A} (c : M A) : MF A :=
  fun w => let '(a, w') := c w in Returned a w'.

Declare Scope fallible_scope.
Delimit Scope fallible_scope with fallible.
Notation "x <- c ;; k" := (bindF c (fun x => k))
  (at level 100, c at next level, right associativity) : fallible_scope.
Notation "c ;; k" := (bindF c (fun _ => k))
  (at level 100, right associativity) : fallible_scope.

(** The state a call leaves the actor in, whether it returned or faulted. *)
Definition final {A} (o : Outcome A) : World :=
  match o with
  | Returned _ w => w
  | Faulted w => w
  end.

Definition returned {A} (o : Outcome A) : bool :=
  match o with
  | Returned _ _ => true
  | Faulted _ => false
  end.

(** ** The implementation file *)

Section Service.

(** The value found in the uninitialised [int] member of a freshly
    declared [FResponse_Login]. *)
Variable indeterminate : Z.

Definition SetRequestHeaders (Request : IHttpRequest) : M IHttpRequest :=
  s <- self ;;
  let Request := SetHeader "User-Agent" "X-UnrealEngine-Agent" Request in
  let Request := SetHeader "Content-Type" "application/json" Request in
  let Request := SetHeader "Accepts" "application/json" Request in
  let Request := SetHeader (AuthorizationHeader s) (AuthorizationHash s) Request in
  ret Request.

(** [Http->CreateRequest()] goes through the pointer, set or not. *)
Definition RequestWithRoute (Subroute : string) : MF IHttpRequest :=
  (s <- lift self ;;
   match Http s with
   | None => fault
   | Some Http =>
       let Request := CreateRequest Http in
       let Request := SetURL (ApiBaseUrl s +:+ Subroute) Request in
       Request <- lift (SetRequestHeaders Request) ;;
       retF Request
   end)%fallible.

Definition GetRequest (Subroute : string) : MF IHttpRequest :=
  (Request <- RequestWithRoute Subroute ;;
   let Request := SetVerb "GET" Request in
   retF Request)%fallible.

Definition PostRequest (Subroute ContentJsonString : string) : MF IHttpRequest :=
  (Request <- RequestWithRoute Subroute ;;
   let Request := SetVerb "POST" Request in
   let Request := SetContentAsString ContentJsonString Request in
   retF Request)%fallible.

Definition Send (Request : IHttpRequest) : M unit :=
  emit (ProcessRequest Request).

Definition ResponseIsValid (Response : FHttpResponsePtr) (bWasSuccessful : bool)
  : M bool :=
  match negb bWasSuccessful, Response with
  | true, _ | _, None => ret false
  | false, Some r =>
      if EHttpResponseCodes.IsOk (GetResponseCode r) then ret true
      else
        emit (UE_LOG "Http Response returned error code: %d"
                     (ArgInt (GetResponseCode r))) ;;
        ret false
  end.

Definition SetAuthorizationHash (Hash : string) : M unit :=
  fun w =>
    (tt, {| this := {| Http := Http (this w);
                       ApiBaseUrl := ApiBaseUrl (this w);
                       AuthorizationHeader := AuthorizationHeader (this w);
                       AuthorizationHash := Hash |};
            trace := trace w |}).

(** The assignment [Http = &FHttpModule::Get()]. *)
Definition assign_Http (module : FHttpModule) : M unit :=
  fun w =>
    (tt, {| this := {| Http := Some module;
                       ApiBaseUrl := ApiBaseUrl (this w);
                       AuthorizationHeader := AuthorizationHeader (this w);
                       AuthorizationHash := AuthorizationHash (this w) |};
            trace := trace w |}).

Definition GetJsonStringFromStruct {StructType} `{UStruct.UScriptStruct StructType}
    (FilledStruct : StructType) : M string :=
  ret (FJsonObjectConverter.UStructToJsonObjectString FilledStruct).

(** [Response] is dereferenced without a check; the one caller has
    checked it. *)
Definition GetStructFromJsonString {StructType} `{UStruct.UScriptStruct StructType}
    (Response : FHttpResponse) (StructOutput : StructType) : M StructType :=
  let JsonString := GetContentAsString Response in
  emit (JsonObjectStringToUStruct_call JsonString) ;;
  ret (snd (FJsonObjectConverter.JsonObjectStringToUStruct JsonString StructOutput)).

Definition Login (LoginCredentials : FRequest_Login) : MF unit :=
  (ContentJsonString <- lift (GetJsonStringFromStruct LoginCredentials) ;;
   Request <- PostRequest "user/login" ContentJsonString ;;
   let Request := BindUObject BindUObject_LoginResponse Request in
   lift (Send Request))%fallible.

Definition LoginResponse (Request : option IHttpRequest)
    (Response : FHttpResponsePtr) (bWasSuccessful : bool) : M unit :=
  valid <- ResponseIsValid Response bWasSuccessful ;;
  match negb valid, Response with
  | true, _ | _, None => ret tt
  | false, Some r =>
      let LoginResponse := FResponse_Login_ctor indeterminate in
      LoginResponse <- GetStructFromJsonString r LoginResponse ;;
      SetAuthorizationHash (hash LoginResponse) ;;
      emit (UE_LOG "Id is: %d" (ArgInt (id LoginResponse))) ;;
      emit (UE_LOG "Name is: %s" (ArgStr (name LoginResponse)))
  end.

Definition BeginPlay (HasAuthority : bool) : MF unit :=
  if negb HasAuthority then retF tt
  else
    (lift (assign_Http FHttpModule_Get) ;;
     let LoginCredentials := FRequest_Login_ctor in
     let LoginCredentials :=
       {| email := "asdf@asdf.com"; password := password LoginCredentials |} in
     let LoginCredentials :=
       {| email := email LoginCredentials; password := "asdfasdf" |} in
     Login LoginCredentials)%fallible.

(** *** The actor seen from outside *)

(** The public member functions, as the engine and the transport call
    them over the life of the actor. *)
Inductive Call : Type :=
| Call_BeginPlay (HasAuthority : bool)
| Call_Login (LoginCredentials : FRequest_Login)
| Call_LoginResponse (Request : option IHttpRequest)
                     (Response : FHttpResponsePtr) (bWasSuccessful : bool).

Definition call (c : Call) : MF unit :=
  match c with
  | Call_BeginPlay a => BeginPlay a
  | Call_Login creds => Login creds
  | Call_LoginResponse req resp ok => lift (LoginResponse req resp ok)
  end.

(** The calls of a sequence in order; a call that faults is the last one
    that happens. *)
Fixpoint run (cs : list Call) : MF unit :=
  match cs with
  | [] => retF tt
  | c :: cs => (call c ;; run cs)%fallible
  end.

(** The actor as constructed, before any member function has run. *)
Definition spawned : World :=
  {| this := AHttpService_ctor; trace := [] |}.

(** The private request builders a member function may use
    ([HttpService.h], lines 45-46). *)
Inductive Builder : Type :=
| Build_GetRequest (Subroute : string)
| Build_PostRequest (Subroute ContentJsonString : string).

Definition build (b : Builder) : MF IHttpRequest :=
  match b with
  | Build_GetRequest r => GetRequest r
  | Build_PostRequest r c => PostRequest r c
  end.

End Service.

(** *** Vocabulary of the contracts *)

(** The verdict of [ResponseIsValid] on a completion outcome. *)
Definition classified_valid (Response : FHttpResponsePtr) (bWasSuccessful : bool)
  : bool :=
  eval (ResponseIsValid Response bWasSuccessful) spawned.

(** A call that is a login completion with a valid outcome. *)
Definition successful_login_completion (c : Call) : bool :=
  match c with
  | Call_LoginResponse _ Response bWasSuccessful =>
      classified_valid Response bWasSuccessful
  | _ => false
  end.

(** The body is a JSON object with a string member [hash]. *)
Definition carries_hash (body : string) : bool :=
  match Json.read body with
  | Some (Json.JObject fields) =>
      match Json.TryGetField fields "hash" with
      | Some (Json.JString _) => true
      | _ => false
      end
  | _ => false
  end.

(** The requests handed to the transport, oldest first. *)
Fixpoint sent_requests (tr : list Event) : list IHttpRequest :=
  match tr with
  | [] => []
  | ProcessRequest Request :: tr => Request :: sent_requests tr
  | _ :: tr => sent_requests tr
  end.

(** The credentials of the logins a sequence of calls starts: one per
    [Login], and the built-in pair for a [BeginPlay] with authority. *)
Fixpoint login_credentials (cs : list Call) : list FRequest_Login :=
  match cs with
  | [] => []
  | Call_Login LoginCredentials :: cs => LoginCredentials :: login_credentials cs
  | Call_BeginPlay true :: cs =>
      {| email := "asdf@asdf.com"; password := "asdfasdf" |} :: login_credentials cs
  | _ :: cs => login_credentials cs
  end.

(** The three headers [SetRequestHeaders] sets under fixed names. *)
Definition fixed_headers : gmap string string :=
  <["Accepts" := "application/json"]>
    (<["Content-Type" := "application/json"]>
       (<["User-Agent" := "X-UnrealEngine-Agent"]> ∅)).

(** The headers [SetRequestHeaders] leaves on a fresh request. *)
Definition built_headers (s : AHttpService) : gmap string string :=
  <[AuthorizationHeader s := AuthorizationHash s]> fixed_headers.

(** The request [Login] hands to the transport. *)
Definition login_request (s : AHttpService) (LoginCredentials : FRequest_Login)
  : IHttpRequest :=
  {| URL := ApiBaseUrl s +:+ "user/login";
     Verb := "POST";
     Headers := built_headers s;
     Content := FJsonObjectConverter.UStructToJsonObjectString LoginCredentials;
     OnProcessRequestComplete := BindUObject_LoginResponse |}.

(** A login request as [Login] builds it, for a base URL and a name of the
    authorization header. *)
Definition login_request_shape (base header : string) (Request : IHttpRequest)
  : Prop :=
  Verb Request = "POST" /\
  URL Request = base +:+ "user/login" /\
  OnProcessRequestComplete Request = BindUObject_LoginResponse /\
  (exists credential, Headers Request = <[header := credential]> fixed_headers) /\
  (exists LoginCredentials : FRequest_Login,
      Content Request
      = FJsonObjectConverter.UStructToJsonObjectString LoginCredentials).

(** * Properties *)

Module Int32Facts.
Import Int32.

Lemma wrap_in_range z : in_range (wrap z).
Proof.
  unfold in_range, wrap, min_signed, max_signed, modulus.
  pose proof (Z.mod_pos_bound (z - -2147483648) 4294967296). lia.
Qed.

Lemma wrap_id z : in_range z -> wrap z = z.
Proof.
  unfold in_range, wrap, min_signed, max_signed, modulus. intros Hz.
  rewrite Z.mod_small; lia.
Qed.

End Int32Facts.

(** ** The reader inverts the writer on flat objects *)

Module JsonFacts.
Import Json.

#[local] Arguments String.append : simpl nomatch.

Lemma append_assoc (a b c : string) : (a +:+ b) +:+ c = a +:+ b +:+ c.
Proof. induction a as [|x a IH]; simpl; [reflexivity | now rewrite IH]. Qed.

Lemma append_nil_r (a : string) : a +:+ "" = a.
Proof. induction a as [|x a IH]; simpl; [reflexivity | now rewrite IH]. Qed.

Lemma length_append (a b : string) :
  String.length (a +:+ b) = (String.length a + String.length b)%nat.
Proof. induction a as [|x a IH]; simpl; [reflexivity | now rewrite IH]. Qed.

(** *** String literals *)

Lemma read_pieces_escape (s rest : string) :
  exists ps, read_pieces (escape s +:+ String "034" rest) = Some (ps, rest)
             /\ assemble ps = s.
Proof.
  induction s as [|c t (ps & IH & Hps)]; [now exists []|].
  cbn [escape]. rewrite append_assoc. unfold escape_char.
  exists (Byte c :: ps). cbn [assemble]. rewrite Hps. split; [|reflexivity].
  destruct (Ascii.eqb c "034") eqn:E1;
    [apply Ascii.eqb_eq in E1; subst c; simpl; now rewrite IH|].
  destruct (Ascii.eqb c "092") eqn:E2;
    [apply Ascii.eqb_eq in E2; subst c; simpl; now rewrite IH|].
  destruct (Ascii.eqb c "010") eqn:E3;
    [apply Ascii.eqb_eq in E3; subst c; simpl; now rewrite IH|].
  destruct (Ascii.eqb c "013") eqn:E4;
    [apply Ascii.eqb_eq in E4; subst c; simpl; now rewrite IH|].
  destruct (Ascii.eqb c "009") eqn:E5;
    [apply Ascii.eqb_eq in E5; subst c; simpl; now rewrite IH|].
  destruct (Ascii.eqb c "008") eqn:E6;
    [apply Ascii.eqb_eq in E6; subst c; simpl; now rewrite IH|].
  destruct (Ascii.eqb c "012") eqn:E7;
    [apply Ascii.eqb_eq in E7; subst c; simpl; now rewrite IH|].
  cbn [append read_pieces]. now rewrite E1, E2, IH.
Qed.

Lemma read_chars_escape (s rest : string) :
  read_chars (escape s +:+ String "034" rest) = Some (s, rest).
Proof.
  unfold read_chars. destruct (read_pieces_escape s rest) as (ps & -> & ->).
  reflexivity.
Qed.

Lemma quote_append (s rest : string) :
  quote s +:+ rest = String "034" (escape s +:+ String "034" rest).
Proof. unfold quote. cbn [append]. now rewrite append_assoc. Qed.

Lemma read_string_quote (s rest : string) :
  read_string (skip_ws (quote s +:+ rest)) = Some (s, rest).
Proof. rewrite quote_append. cbn. apply read_chars_escape. Qed.

(** *** Numbers *)

Lemma span_digits_delimited (rest : string) :
  delimited rest -> span_digits rest = ("", rest).
Proof.
  destruct rest as [|c t]; cbn [delimited span_digits]; [reflexivity|].
  now destruct (is_digit c).
Qed.

Lemma read_fraction_delimited (rest : string) :
  delimited rest -> read_fraction rest = Some (None, rest).
Proof.
  destruct rest as [|c t]; cbn [delimited read_fraction]; [reflexivity|].
  destruct (is_digit c), (Ascii.eqb c "."); cbn; easy.
Qed.

Lemma read_exponent_delimited (rest : string) :
  delimited rest -> read_exponent rest = Some (None, rest).
Proof.
  destruct rest as [|c t]; cbn [delimited read_exponent]; [reflexivity|].
  destruct (is_digit c), (Ascii.eqb c "."), (Ascii.eqb c "e"), (Ascii.eqb c "E");
    cbn; easy.
Qed.

Lemma span_digits_uint (u : Decimal.uint) (rest : string) :
  delimited rest ->
  span_digits (NilEmpty.string_of_uint u +:+ rest)
  = (NilEmpty.string_of_uint u, rest).
Proof.
  intros Hd. induction u; cbn [NilEmpty.string_of_uint append];
    [now apply span_digits_delimited | ..];
    cbn [span_digits]; rewrite IHu; reflexivity.
Qed.

Lemma string_of_uint_nonnil (u : Decimal.uint) :
  u <> Decimal.Nil -> NilZero.string_of_uint u = NilEmpty.string_of_uint u.
Proof. now destruct u. Qed.

Lemma uint_head (u : Decimal.uint) (rest : string) :
  u <> Decimal.Nil ->
  exists c t, NilEmpty.string_of_uint u +:+ rest = String c t /\ is_digit c = true.
Proof. destruct u; [easy | ..]; intros _; cbn; eauto. Qed.

Lemma digit_not_sign (c : ascii) : is_digit c = true -> Ascii.eqb c "-" = false.
Proof.
  destruct c as [[] [] [] [] [] [] [] []]; cbn; intros H;
    (discriminate H || reflexivity).
Qed.

Lemma read_number_uint (u : Decimal.uint) (rest : string) :
  u <> Decimal.Nil -> delimited rest ->
  read_number (NilEmpty.string_of_uint u +:+ rest)
  = Some (Z.of_int (Decimal.Pos u), rest).
Proof.
  intros Hu Hd. destruct (uint_head u rest Hu) as (c & t & Heq & Hc).
  unfold read_number. rewrite Heq, (digit_not_sign c Hc), <- Heq.
  rewrite (span_digits_uint u rest Hd).
  rewrite <- (string_of_uint_nonnil u Hu), (NilZero.usu u Hu). reflexivity.
Qed.

Lemma read_number_write (n : Z) (rest : string) :
  delimited rest -> read_number (write_number n +:+ rest) = Some (n, rest).
Proof.
  intros Hd. unfold write_number. destruct n as [|p|p]; cbn [Z.to_int].
  - change (NilZero.string_of_int (Decimal.Pos (Decimal.D0 Decimal.Nil)))
      with (NilEmpty.string_of_uint (Decimal.D0 Decimal.Nil)).
    now rewrite read_number_uint.
  - pose proof (Unsigned.to_uint_nonnil p) as Hp.
    cbn [NilZero.string_of_int]. rewrite (string_of_uint_nonnil _ Hp).
    rewrite (read_number_uint _ rest Hp Hd).
    now rewrite <- (DecimalZ.of_to (Z.pos p)).
  - pose proof (Unsigned.to_uint_nonnil p) as Hp.
    cbn [NilZero.string_of_int]. rewrite (string_of_uint_nonnil _ Hp).
    cbn [append read_number]. change (Ascii.eqb "-" "-") with true. cbn iota.
    rewrite (span_digits_uint _ rest Hd).
    rewrite <- (string_of_uint_nonnil _ Hp), (NilZero.usu _ Hp).
    now rewrite <- (DecimalZ.of_to (Z.neg p)).
Qed.

Lemma write_number_head (n : Z) (rest : string) :
  exists c t, write_number n +:+ rest = String c t /\ number_head c.
Proof.
  unfold write_number, number_head. destruct n as [|p|p]; cbn [Z.to_int].
  - cbn. eauto.
  - pose proof (Unsigned.to_uint_nonnil p) as Hp.
    cbn [NilZero.string_of_int]. rewrite (string_of_uint_nonnil _ Hp).
    destruct (uint_head (Pos.to_uint p) rest Hp) as (c & t & Heq & Hc). eauto.
  - cbn. eauto.
Qed.

(** *** Scalar values *)

Lemma number_head_dispatch (c : ascii) :
  number_head c ->
  is_space c = false /\
  Ascii.eqb c "{" = false /\ Ascii.eqb c "[" = false /\
  Ascii.eqb c "034" = false /\ Ascii.eqb c "t" = false /\
  Ascii.eqb c "f" = false /\ Ascii.eqb c "n" = false.
Proof.
  intros [H | ->]; [|repeat split; reflexivity].
  destruct c as [[] [] [] [] [] [] [] []]; cbn in H;
    (discriminate H || (repeat split; reflexivity)).
Qed.

Lemma read_value_eq (fuel : nat) (c : ascii) (t : string) :
  is_space c = false ->
  read_value (S fuel) (String c t) =
    if Ascii.eqb c "{" then
      match expect "}" t with
      | Some rest => Some (JObject [], rest)
      | None =>
          match read_members fuel t with
          | Some (fs, rest) => Some (JObject fs, rest)
          | None => None
          end
      end
    else if Ascii.eqb c "[" then
      match expect "]" t with
      | Some rest => Some (JArray [], rest)
      | None =>
          match read_elements fuel t with
          | Some (vs, rest) => Some (JArray vs, rest)
          | None => None
          end
      end
    else if Ascii.eqb c "034" then
      match read_chars t with
      | Some (str, rest) => Some (JString str, rest)
      | None => None
      end
    else if Ascii.eqb c "t" then
      match strip_prefix "rue" t with
      | Some rest => Some (JBoolean true, rest)
      | None => None
      end
    else if Ascii.eqb c "f" then
      match strip_prefix "alse" t with
      | Some rest => Some (JBoolean false, rest)
      | None => None
      end
    else if Ascii.eqb c "n" then
      match strip_prefix "ull" t with
      | Some rest => Some (JNull, rest)
      | None => None
      end
    else read_numeric (String c t).
Proof. intros Hc. cbn [read_value skip_ws]. now rewrite Hc. Qed.

Lemma read_value_number (fuel : nat) (n : Z) (rest : string) :
  delimited rest ->
  read_value (S fuel) (write_number n +:+ rest) = Some (JNumber n, rest).
Proof.
  intros Hd. destruct (write_number_head n rest) as (c & t & Heq & Hc).
  destruct (number_head_dispatch c Hc) as (Hs & H1 & H2 & H3 & H4 & H5 & H6).
  rewrite Heq, (read_value_eq fuel c t Hs), H1, H2, H3, H4, H5, H6, <- Heq.
  unfold read_numeric. rewrite (read_number_write n rest Hd).
  now rewrite (read_fraction_delimited rest Hd), (read_exponent_delimited rest Hd).
Qed.

Lemma read_value_string (fuel : nat) (s rest : string) :
  read_value (S fuel) (quote s +:+ rest) = Some (JString s, rest).
Proof.
  rewrite quote_append, read_value_eq by reflexivity.
  change (Ascii.eqb "034" "{") with false. change (Ascii.eqb "034" "[") with false.
  change (Ascii.eqb "034" "034") with true. cbn iota.
  now rewrite read_chars_escape.
Qed.

Lemma read_value_scalar (fuel : nat) (v : FJsonValue) (rest : string) :
  scalar v -> delimited rest ->
  read_value (S fuel) (write v +:+ rest) = Some (v, rest).
Proof.
  destruct v; cbn [scalar]; try easy; intros _ Hd; cbn [write].
  - now apply read_value_number.
  - apply read_value_string.
Qed.

(** *** Objects whose members are scalars *)

Lemma expect_here (c : ascii) (t : string) :
  is_space c = false -> expect c (String c t) = Some t.
Proof.
  intros Hc. unfold expect. cbn [skip_ws]. now rewrite Hc, Ascii.eqb_refl.
Qed.

Lemma write_object (fields : list (string * FJsonValue)) :
  write (JObject fields) = "{" +:+ join "," (map write_member fields) +:+ "}".
Proof.
  cbn [write]. do 3 f_equal. apply map_ext. now intros [k v].
Qed.

Lemma read_members_eq (fuel : nat) (k : string) (v : FJsonValue) (s3 : string) :
  read_value fuel (write v +:+ s3) = Some (v, s3) ->
  read_members (S fuel) (write_member (k, v) +:+ s3) =
    match expect "," s3 with
    | Some s4 =>
        match read_members fuel s4 with
        | Some (fs, rest) => Some ((k, v) :: fs, rest)
        | None => None
        end
    | None =>
        match expect "}" s3 with
        | Some rest => Some ([(k, v)], rest)
        | None => None
        end
    end.
Proof.
  intros Hv. unfold write_member. cbn [fst snd read_members].
  rewrite append_assoc, read_string_quote, append_assoc.
  change (expect ":" (":" +:+ write v +:+ s3)) with (Some (write v +:+ s3)).
  cbn iota. now rewrite Hv.
Qed.

Lemma read_members_flat (fields : list (string * FJsonValue)) :
  Forall (fun m => scalar (snd m)) fields -> fields <> [] ->
  forall (fuel : nat) (rest : string),
    (length fields < fuel)%nat ->
    read_members fuel (join "," (map write_member fields) +:+ String "}" rest)
    = Some (fields, rest).
Proof.
  induction 1 as [|[k v] ms Hv Hms IH]; [easy|]. intros _ fuel rest Hfuel.
  destruct fuel as [|[|fuel]]; cbn [length] in Hfuel; [lia | lia |].
  destruct ms as [|m ms].
  - cbn [map join]. rewrite read_members_eq.
    + reflexivity.
    + now apply read_value_scalar.
  - change (join "," (map write_member ((k, v) :: m :: ms)))
      with (write_member (k, v) +:+ "," +:+ join "," (map write_member (m :: ms))).
    rewrite append_assoc, append_assoc. rewrite read_members_eq.
    + cbn [append]. rewrite expect_here by reflexivity.
      rewrite IH; [reflexivity | easy | cbn [length] in *; lia].
    + now apply read_value_scalar.
Qed.

Lemma join_length (fields : list (string * FJsonValue)) :
  (length fields <= String.length (join "," (map write_member fields)))%nat.
Proof.
  assert (Hm : forall m, (1 <= String.length (write_member m))%nat).
  { intros [k v]. unfold write_member, quote. cbn [fst String.length append]. lia. }
  induction fields as [|m [|m' ms] IH]; cbn [length]; [lia | apply Hm |].
  change (join "," (map write_member (m :: m' :: ms)))
    with (write_member m +:+ "," +:+ join "," (map write_member (m' :: ms))).
  rewrite !length_append. cbn [length String.length] in *.
  specialize (Hm m). lia.
Qed.

Lemma read_value_flat (fields : list (string * FJsonValue)) (fuel : nat) (rest : string) :
  Forall (fun m => scalar (snd m)) fields ->
  (length fields < fuel)%nat ->
  read_value (S fuel) (write (JObject fields) +:+ rest) = Some (JObject fields, rest).
Proof.
  intros Hsc Hfuel. rewrite write_object, !append_assoc.
  cbn [append]. rewrite read_value_eq by reflexivity.
  change (Ascii.eqb "{" "{") with true. cbn iota.
  destruct fields as [|[k v] ms]; [reflexivity|].
  assert (Hex : forall t, expect "}" (write_member (k, v) +:+ t) = None).
  { intros t. unfold write_member. cbn [fst]. now rewrite append_assoc, quote_append. }
  assert (Hhd : exists t, join "," (map write_member ((k, v) :: ms)) +:+ String "}" rest
                          = write_member (k, v) +:+ t).
  { destruct ms as [|m ms]; [now eexists|].
    eexists. cbn [map join]. now rewrite append_assoc. }
  destruct Hhd as [t Ht]. rewrite Ht, Hex, <- Ht.
  now rewrite read_members_flat.
Qed.

(** Reading back a written object whose members are scalars succeeds and
    returns the object. *)
Lemma read_write_flat (fields : list (string * FJsonValue)) :
  Forall (fun m => scalar (snd m)) fields ->
  read (write (JObject fields)) = Some (JObject fields).
Proof.
  intros Hsc. unfold read.
  rewrite <- (append_nil_r (write (JObject fields))) at 2.
  rewrite read_value_flat; [reflexivity | exact Hsc |].
  rewrite write_object, !length_append. cbn [String.length].
  pose proof (join_length fields). lia.
Qed.

End JsonFacts.

(** ** The service *)

Section ServiceFacts.

Variable indeterminate : Z.

Local Open Scope service_scope.

(** *** The validator *)

Lemma ResponseIsValid_unfold (Response : FHttpResponsePtr) (ok : bool) (w : World) :
  ResponseIsValid Response ok w =
    match ok, Response with
    | true, Some r =>
        if EHttpResponseCodes.IsOk (GetResponseCode r) then (true, w)
        else (false,
              {| this := this w;
                 trace := trace w ++
                   [UE_LOG "Http Response returned error code: %d"
                           (ArgInt (GetResponseCode r))] |})
    | _, _ => (false, w)
    end.
Proof.
  destruct ok, Response as [r|]; try reflexivity.
  unfold ResponseIsValid. cbn [negb].
  destruct (EHttpResponseCodes.IsOk (GetResponseCode r)); reflexivity.
Qed.

Lemma ResponseIsValid_this (Response : FHttpResponsePtr) (ok : bool) (w : World) :
  this (exec (ResponseIsValid Response ok) w) = this w.
Proof.
  unfold exec. rewrite ResponseIsValid_unfold.
  destruct ok, Response as [r|]; try reflexivity.
  destruct (EHttpResponseCodes.IsOk (GetResponseCode r)); reflexivity.
Qed.

(** The verdict depends on the outcome alone. *)
Lemma ResponseIsValid_verdict (Response : FHttpResponsePtr) (ok : bool) (w w' : World) :
  eval (ResponseIsValid Response ok) w = eval (ResponseIsValid Response ok) w'.
Proof.
  unfold eval. rewrite !ResponseIsValid_unfold.
  destruct ok, Response as [r|]; try reflexivity.
  destruct (EHttpResponseCodes.IsOk (GetResponseCode r)); reflexivity.
Qed.

Lemma ResponseIsValid_true (Response : FHttpResponsePtr) (ok : bool) (w : World) :
  eval (ResponseIsValid Response ok) w = true ->
  ok = true /\ exists r, Response = Some r
                         /\ EHttpResponseCodes.IsOk (GetResponseCode r) = true
                         /\ exec (ResponseIsValid Response ok) w = w.
Proof.
  unfold eval, exec. rewrite ResponseIsValid_unfold.
  destruct ok, Response as [r|]; try discriminate.
  destruct (EHttpResponseCodes.IsOk (GetResponseCode r)) eqn:E; [|discriminate].
  intros _. split; [reflexivity|]. exists r. now rewrite E.
Qed.

Lemma IsOk_range (c : Z) :
  EHttpResponseCodes.IsOk c = true <-> 200 <= c <= 299.
Proof. unfold EHttpResponseCodes.IsOk. lia. Qed.

(** *** The login completion handler *)

Lemma LoginResponse_invalid (Request : option IHttpRequest)
    (Response : FHttpResponsePtr) (ok : bool) (w : World) :
  eval (ResponseIsValid Response ok) w = false ->
  exec (LoginResponse indeterminate Request Response ok) w = exec (ResponseIsValid Response ok) w.
Proof.
  unfold eval, exec, LoginResponse, bind.
  destruct (ResponseIsValid Response ok w) as [valid w1]. cbn [fst snd].
  now intros ->.
Qed.

Lemma LoginResponse_valid (Request : option IHttpRequest)
    (r : FHttpResponse) (ok : bool) (w : World) :
  eval (ResponseIsValid (Some r) ok) w = true ->
  let decoded :=
    snd (FJsonObjectConverter.JsonObjectStringToUStruct
           (GetContentAsString r) (FResponse_Login_ctor indeterminate)) in
  exec (LoginResponse indeterminate Request (Some r) ok) w =
    {| this := {| Http := Http (this w);
                  ApiBaseUrl := ApiBaseUrl (this w);
                  AuthorizationHeader := AuthorizationHeader (this w);
                  AuthorizationHash := hash decoded |};
       trace := ((trace w ++ [JsonObjectStringToUStruct_call (GetContentAsString r)])
                   ++ [UE_LOG "Id is: %d" (ArgInt (id decoded))])
                   ++ [UE_LOG "Name is: %s" (ArgStr (name decoded))] |}.
Proof.
  intros Hv. destruct (ResponseIsValid_true _ _ _ Hv) as (_ & _ & _ & _ & Hw).
  unfold eval in Hv. unfold exec in Hw |- *. unfold LoginResponse, bind.
  destruct (ResponseIsValid (Some r) ok w) as [valid w1].
  cbn [fst snd] in Hv, Hw. subst valid w1. reflexivity.
Qed.

(** *** The request builders *)

Lemma RequestWithRoute_unfold (Subroute : string) (w : World) :
  RequestWithRoute Subroute w =
    match Http (this w) with
    | Some module =>
        Returned {| URL := ApiBaseUrl (this w) +:+ Subroute;
                    Verb := "";
                    Headers := built_headers (this w);
                    Content := "";
                    OnProcessRequestComplete := Unbound |} w
    | None => Faulted w
    end.
Proof.
  unfold RequestWithRoute, bindF, lift, self.
  destruct (Http (this w)); reflexivity.
Qed.

Lemma build_unfold (b : Builder) (w : World) :
  build b w =
    match Http (this w) with
    | Some module =>
        Returned
          match b with
          | Build_GetRequest route =>
              {| URL := ApiBaseUrl (this w) +:+ route;
                 Verb := "GET";
                 Headers := built_headers (this w);
                 Content := "";
                 OnProcessRequestComplete := Unbound |}
          | Build_PostRequest route body =>
              {| URL := ApiBaseUrl (this w) +:+ route;
                 Verb := "POST";
                 Headers := built_headers (this w);
                 Content := body;
                 OnProcessRequestComplete := Unbound |}
          end w
    | None => Faulted w
    end.
Proof.
  destruct b as [route | route body]; cbn [build];
    unfold GetRequest, PostRequest, bindF; rewrite RequestWithRoute_unfold;
    destruct (Http (this w)); reflexivity.
Qed.

Lemma Login_unfold (creds : FRequest_Login) (w : World) :
  Login creds w =
    match Http (this w) with
    | Some module =>
        Returned tt {| this := this w;
                       trace := trace w ++ [ProcessRequest (login_request (this w) creds)] |}
    | None => Faulted w
    end.
Proof.
  unfold Login, bindF, lift, GetJsonStringFromStruct, ret.
  change (PostRequest "user/login"
            (FJsonObjectConverter.UStructToJsonObjectString creds))
    with (build (Build_PostRequest "user/login"
                   (FJsonObjectConverter.UStructToJsonObjectString creds))).
  rewrite build_unfold. destruct (Http (this w)); reflexivity.
Qed.

Lemma BeginPlay_unfold (HasAuthority : bool) (w : World) :
  BeginPlay HasAuthority w =
    if HasAuthority then
      let s := {| Http := Some FHttpModule_Get;
                  ApiBaseUrl := ApiBaseUrl (this w);
                  AuthorizationHeader := AuthorizationHeader (this w);
                  AuthorizationHash := AuthorizationHash (this w) |} in
      Returned tt
        {| this := s;
           trace := trace w ++
             [ProcessRequest
                (login_request s {| email := "asdf@asdf.com"; password := "asdfasdf" |})] |}
    else Returned tt w.
Proof.
  destruct HasAuthority; [|reflexivity].
  unfold BeginPlay. cbn [negb]. unfold bindF at 1. unfold lift, assign_Http.
  rewrite Login_unfold. reflexivity.
Qed.

(** *** Sequences of calls *)

Lemma final_lift {A} (c : M A) (w : World) : final (lift c w) = exec c w.
Proof. unfold lift, exec. now destruct (c w). Qed.

Lemma returned_lift {A} (c : M A) (w : World) : returned (lift c w) = true.
Proof. unfold lift. now destruct (c w). Qed.

Lemma run_cons (c : Call) (cs : list Call) (w : World) :
  run indeterminate (c :: cs) w =
    match call indeterminate c w with
    | Returned _ w' => run indeterminate cs w'
    | Faulted w' => Faulted w'
    end.
Proof. reflexivity. Qed.

Lemma run_app (cs1 cs2 : list Call) (w : World) :
  run indeterminate (cs1 ++ cs2) w =
    match run indeterminate cs1 w with
    | Returned _ w' => run indeterminate cs2 w'
    | Faulted w' => Faulted w'
    end.
Proof.
  revert w. induction cs1 as [|c cs1 IH]; intros w; [reflexivity|].
  cbn [app]. rewrite !run_cons.
  destruct (call indeterminate c w) as [[] w'|w']; [apply IH | reflexivity].
Qed.

(** What one call does to the data members. *)
Lemma call_this (c : Call) (w : World) :
  this (final (call indeterminate c w)) =
    match c with
    | Call_BeginPlay true =>
        {| Http := Some FHttpModule_Get;
           ApiBaseUrl := ApiBaseUrl (this w);
           AuthorizationHeader := AuthorizationHeader (this w);
           AuthorizationHash := AuthorizationHash (this w) |}
    | Call_LoginResponse _ (Some r) ok =>
        if eval (ResponseIsValid (Some r) ok) w then
          {| Http := Http (this w);
             ApiBaseUrl := ApiBaseUrl (this w);
             AuthorizationHeader := AuthorizationHeader (this w);
             AuthorizationHash :=
               hash (snd (FJsonObjectConverter.JsonObjectStringToUStruct
                            (GetContentAsString r)
                            (FResponse_Login_ctor indeterminate))) |}
        else this w
    | _ => this w
    end.
Proof.
  destruct c as [[|] | creds | req resp ok]; cbn [call].
  - now rewrite BeginPlay_unfold.
  - reflexivity.
  - rewrite Login_unfold. now destruct (Http (this w)).
  - rewrite final_lift.
    destruct (eval (ResponseIsValid resp ok) w) eqn:Hv.
    + destruct (ResponseIsValid_true _ _ _ Hv) as (_ & r & -> & _).
      now rewrite Hv, (LoginResponse_valid req r ok w Hv).
    + rewrite (LoginResponse_invalid req resp ok w Hv), ResponseIsValid_this.
      destruct resp as [r|]; [now rewrite Hv | reflexivity].
Qed.

Lemma call_constants (c : Call) (w : World) :
  ApiBaseUrl (this (final (call indeterminate c w))) = ApiBaseUrl (this w) /\
  AuthorizationHeader (this (final (call indeterminate c w)))
    = AuthorizationHeader (this w).
Proof.
  rewrite call_this. destruct c as [[|] | creds | req [r|] ok]; try easy.
  now destruct (eval (ResponseIsValid (Some r) ok) w).
Qed.

Lemma run_constants (cs : list Call) (w : World) :
  ApiBaseUrl (this (final (run indeterminate cs w))) = ApiBaseUrl (this w) /\
  AuthorizationHeader (this (final (run indeterminate cs w)))
    = AuthorizationHeader (this w).
Proof.
  revert w. induction cs as [|c cs IH]; intros w; [now split|].
  rewrite run_cons. pose proof (call_constants c w) as Hc.
  destruct (call indeterminate c w) as [[] w'|w']; cbn [final] in Hc |- *.
  - destruct (IH w') as [-> ->]. exact Hc.
  - exact Hc.
Qed.

End ServiceFacts.

(** ** The marshalling templates on the two wire structs *)

Module CodecFacts.
Import Json FJsonObjectConverter.

Lemma decode_request_fields (fields : list (string * FJsonValue)) (out : FRequest_Login) :
  JsonObjectToUStruct fields out =
    {| email := match TryGetField fields "email" with
                | Some (JString s) => s
                | _ => email out
                end;
       password := match TryGetField fields "password" with
                   | Some (JString s) => s
                   | _ => password out
                   end |}.
Proof.
  unfold JsonObjectToUStruct, UStruct.StaticStruct, FRequest_Login_StaticStruct.
  cbn [fold_left]. destruct out as [e p].
  destruct (TryGetField fields "email") as [[]|];
    destruct (TryGetField fields "password") as [[]|]; reflexivity.
Qed.

Lemma decode_response_fields (fields : list (string * FJsonValue)) (out : FResponse_Login) :
  JsonObjectToUStruct fields out =
    {| id := match TryGetField fields "id" with
             | Some (JNumber n) => Int32.wrap n
             | Some (JDecimal m e) => Int32.wrap (truncate m e)
             | _ => id out
             end;
       name := match TryGetField fields "name" with
               | Some (JString s) => s
               | _ => name out
               end;
       hash := match TryGetField fields "hash" with
               | Some (JString s) => s
               | _ => hash out
               end |}.
Proof.
  unfold JsonObjectToUStruct, UStruct.StaticStruct, FResponse_Login_StaticStruct.
  cbn [fold_left]. destruct out as [i n h].
  destruct (TryGetField fields "id") as [[]|];
    destruct (TryGetField fields "name") as [[]|];
    destruct (TryGetField fields "hash") as [[]|]; reflexivity.
Qed.

Lemma encode_request (P : FRequest_Login) :
  UStructToJsonObject P
  = [("email", JString (email P)); ("password", JString (password P))].
Proof. reflexivity. Qed.

Lemma encode_response (P : FResponse_Login) :
  UStructToJsonObject P
  = [("id", JNumber (id P)); ("name", JString (name P)); ("hash", JString (hash P))].
Proof. reflexivity. Qed.

(** The text written for a struct of any reflected shape reads back as the
    object of its members. *)
Lemma encode_reads_back {T} `{UStruct.UScriptStruct T} (P : T) :
  read (UStructToJsonObjectString P) = Some (JObject (UStructToJsonObject P)).
Proof.
  unfold UStructToJsonObjectString. apply JsonFacts.read_write_flat.
  unfold UStructToJsonObject. apply Forall_map, Forall_forall.
  intros [name p] _. now destruct p.
Qed.

(** Text that is not a JSON object leaves the output struct untouched. *)
Lemma decode_malformed {T} `{UStruct.UScriptStruct T} (JsonString : string) (out : T) :
  (forall fields, read JsonString <> Some (JObject fields)) ->
  JsonObjectStringToUStruct JsonString out = (false, out).
Proof.
  intros Hno. unfold JsonObjectStringToUStruct.
  destruct (read JsonString) as [[| | | | |fields|]|]; try reflexivity.
  now destruct (Hno fields).
Qed.

Lemma round_trip_request (P out : FRequest_Login) :
  JsonObjectStringToUStruct (UStructToJsonObjectString P) out = (true, P).
Proof.
  unfold JsonObjectStringToUStruct. rewrite encode_reads_back, encode_request.
  rewrite decode_request_fields. now destruct P.
Qed.

Lemma round_trip_response (P out : FResponse_Login) :
  Int32.in_range (id P) ->
  JsonObjectStringToUStruct (UStructToJsonObjectString P) out = (true, P).
Proof.
  intros Hid. unfold JsonObjectStringToUStruct.
  rewrite encode_reads_back, encode_response.
  rewrite decode_response_fields. destruct P as [i n h].
  cbn [TryGetField String.eqb Ascii.eqb Bool.eqb id name hash] in *.
  now rewrite (Int32Facts.wrap_id i Hid).
Qed.

End CodecFacts.

(** * The contracts of the specification *)

Local Open Scope service_scope.

(** C3. An outcome whose transport failed, and an outcome without a
    response object, is classified invalid whatever the status code and the
    body are; nothing is logged for it. *)
Theorem ResponseIsValid_rejects_failed_transport
    (Response : FHttpResponsePtr) (bWasSuccessful : bool) (w : World) :
  bWasSuccessful = false \/ Response = None ->
  eval (ResponseIsValid Response bWasSuccessful) w = false /\
  exec (ResponseIsValid Response bWasSuccessful) w = w.
Proof.
  unfold eval, exec. rewrite ResponseIsValid_unfold.
  intros [-> | ->]; [now split|]. now destruct bWasSuccessful.
Qed.

Lemma ResponseIsValid_rejects_failed_transport_witness :
  eval (ResponseIsValid
          (Some {| GetResponseCode := 200; GetContentAsString := "{}" |}) false)
       spawned = false /\
  eval (ResponseIsValid None true) spawned = false.
Proof.
  split.
  - apply (ResponseIsValid_rejects_failed_transport
             (Some {| GetResponseCode := 200; GetContentAsString := "{}" |})
             false spawned).
    left. reflexivity.
  - apply (ResponseIsValid_rejects_failed_transport None true spawned).
    right. reflexivity.
Defined.

(** C2. For a completed outcome with a successful transport and a response
    object, the validator answers valid exactly when the status code lies
    in 200..299; for a code outside that range it answers invalid and logs
    the numeric code as a diagnostic. *)
Theorem ResponseIsValid_status_range (r : FHttpResponse) (w : World) :
  (eval (ResponseIsValid (Some r) true) w = true
   <-> 200 <= GetResponseCode r <= 299) /\
  (~ 200 <= GetResponseCode r <= 299 ->
   eval (ResponseIsValid (Some r) true) w = false /\
   exec (ResponseIsValid (Some r) true) w =
     {| this := this w;
        trace := trace w ++
          [UE_LOG "Http Response returned error code: %d"
                  (ArgInt (GetResponseCode r))] |}).
Proof.
  unfold eval, exec. rewrite ResponseIsValid_unfold.
  pose proof (IsOk_range (GetResponseCode r)) as Hok.
  destruct (EHttpResponseCodes.IsOk (GetResponseCode r)); cbn [fst snd].
  - split; [tauto|]. intros Hout. exfalso. apply Hout, Hok. reflexivity.
  - split; [|now split]. split; [discriminate|].
    intros Hin. apply Hok in Hin. discriminate.
Qed.

Lemma ResponseIsValid_status_range_witness :
  eval (ResponseIsValid
          (Some {| GetResponseCode := 500; GetContentAsString := "oops" |}) true)
       spawned = false /\
  exec (ResponseIsValid
          (Some {| GetResponseCode := 500; GetContentAsString := "oops" |}) true)
       spawned =
    {| this := AHttpService_ctor;
       trace := [UE_LOG "Http Response returned error code: %d" (ArgInt 500)] |}.
Proof.
  apply (ResponseIsValid_status_range
           {| GetResponseCode := 500; GetContentAsString := "oops" |} spawned).
  cbn [GetResponseCode]. lia.
Defined.


(** *** Request builders *)

Lemma built_headers_lookup (s : AHttpService) :
  built_headers s !! AuthorizationHeader s = Some (AuthorizationHash s) /\
  (forall k, k <> AuthorizationHeader s -> built_headers s !! k = fixed_headers !! k) /\
  dom (built_headers s)
    = ({["User-Agent"; "Content-Type"; "Accepts"]} ∪ {[AuthorizationHeader s]}
       : gset string).
Proof.
  unfold built_headers. split; [apply lookup_insert_eq|].
  split; [intros k Hk; now apply lookup_insert_ne|].
  rewrite dom_insert_L. unfold fixed_headers.
  rewrite !dom_insert_L, dom_empty_L. apply set_eq. intros k.
  rewrite !elem_of_union, !elem_of_singleton, elem_of_empty. tauto.
Qed.

Lemma build_returned (b : Builder) (w w' : World) (Request : IHttpRequest) :
  build b w = Returned Request w' ->
  w' = w /\
  Headers Request = built_headers (this w) /\
  Verb Request = match b with Build_GetRequest _ => "GET" | _ => "POST" end.
Proof.
  rewrite build_unfold. destruct (Http (this w)); [|discriminate].
  intros [= <- <-]. now destruct b.
Qed.

Lemma build_returns (b : Builder) (w : World) :
  Http (this w) <> None -> exists Request, build b w = Returned Request w.
Proof.
  intros Hset. rewrite build_unfold.
  destruct (Http (this w)); [now eexists | now destruct Hset].
Qed.

(** C4. Every request a builder produces, in any state the actor can
    reach, carries exactly the four headers User-Agent, Content-Type,
    Accepts and Authorization; the two content headers are
    application/json and the Authorization value is the credential stored
    when the request is built.  A builder produces a request whenever the
    [Http] pointer has been set. *)
Theorem built_request_headers
    (indeterminate : Z) (cs : list Call) (b : Builder) :
  let w := final (run indeterminate cs spawned) in
  (Http (this w) <> None -> exists Request, build b w = Returned Request w) /\
  forall (Request : IHttpRequest) (w' : World),
    build b w = Returned Request w' ->
    dom (Headers Request)
      = ({["User-Agent"; "Content-Type"; "Accepts"; "Authorization"]} : gset string) /\
    Headers Request !! "User-Agent" = Some "X-UnrealEngine-Agent" /\
    Headers Request !! "Content-Type" = Some "application/json" /\
    Headers Request !! "Accepts" = Some "application/json" /\
    Headers Request !! "Authorization" = Some (AuthorizationHash (this w)).
Proof.
  intros w. split; [apply build_returns|].
  intros Request w' Hb. apply build_returned in Hb as (_ & -> & _).
  destruct (run_constants indeterminate cs spawned) as [_ Hname].
  fold w in Hname. cbn [AuthorizationHeader spawned this AHttpService_ctor] in Hname.
  destruct (built_headers_lookup (this w)) as (Hauth & Hfixed & Hdom).
  rewrite Hname in Hauth, Hfixed, Hdom.
  split; [rewrite Hdom; apply set_eq; intros k;
          rewrite !elem_of_union, !elem_of_singleton; tauto|].
  rewrite !Hfixed by discriminate. now repeat split.
Qed.

Lemma built_request_headers_witness :
  exists Request : IHttpRequest,
    build (Build_GetRequest "profile") (final (run 0 [Call_BeginPlay true] spawned))
    = Returned Request (final (run 0 [Call_BeginPlay true] spawned)) /\
    Headers Request !! "Authorization" = Some "asdfasdf".
Proof.
  eexists. split; [reflexivity|].
  apply (proj2 (built_request_headers 0 [Call_BeginPlay true]
                  (Build_GetRequest "profile"))
           _ (final (run 0 [Call_BeginPlay true] spawned))).
  reflexivity.
Defined.

(** C9. A request made by a builder of the interface has the verb GET or
    the verb POST: [GetRequest] and [PostRequest] are the only builders,
    and none yields PUT, DELETE or PATCH. *)
Theorem built_request_verb
    (b : Builder) (w w' : World) (Request : IHttpRequest) :
  build b w = Returned Request w' ->
  (Verb Request = "GET" \/ Verb Request = "POST") /\
  Verb Request <> "PUT" /\
  Verb Request <> "DELETE" /\
  Verb Request <> "PATCH".
Proof.
  intros Hb. apply build_returned in Hb as (_ & _ & ->).
  destruct b; repeat split; (now left) || (now right) || discriminate.
Qed.

Lemma built_request_verb_witness :
  exists Request : IHttpRequest,
    build (Build_PostRequest "scores" "{}")
          (final (run 0 [Call_BeginPlay true] spawned))
    = Returned Request (final (run 0 [Call_BeginPlay true] spawned)) /\
    (Verb Request = "GET" \/ Verb Request = "POST").
Proof.
  eexists. split; [reflexivity|].
  apply (built_request_verb (Build_PostRequest "scores" "{}")
           (final (run 0 [Call_BeginPlay true] spawned))
           (final (run 0 [Call_BeginPlay true] spawned))).
  reflexivity.
Defined.

(** *** Login *)

(** C8. A login with credentials [{email, password}] hands one request to
    the transport: a POST to the base URL followed by [user/login], whose
    body is the JSON encoding of the credentials record, with the
    completion bound to [LoginResponse].  It does so whenever the [Http]
    pointer has been set; while the pointer is unset the call faults in
    [RequestWithRoute] and nothing is dispatched. *)
Theorem Login_dispatches_post
    (indeterminate : Z) (cs : list Call) (LoginCredentials : FRequest_Login) :
  let w := final (run indeterminate cs spawned) in
  (Http (this w) <> None -> returned (Login LoginCredentials w) = true) /\
  (Http (this w) = None -> Login LoginCredentials w = Faulted w) /\
  forall w' : World,
    Login LoginCredentials w = Returned tt w' ->
    exists Request : IHttpRequest,
      w' = {| this := this w; trace := trace w ++ [ProcessRequest Request] |} /\
      Verb Request = "POST" /\
      URL Request = ApiBaseUrl AHttpService_ctor +:+ "user/login" /\
      URL Request = "http://murk.dev/api/user/login" /\
      Content Request
        = Json.write (Json.JObject
                        [("email", Json.JString (email LoginCredentials));
                         ("password", Json.JString (password LoginCredentials))]) /\
      Content Request
        = "{" +:+ Json.quote "email" +:+ ":" +:+ Json.quote (email LoginCredentials)
              +:+ "," +:+ Json.quote "password" +:+ ":"
              +:+ Json.quote (password LoginCredentials) +:+ "}" /\
      OnProcessRequestComplete Request = BindUObject_LoginResponse.
Proof.
  intros w.
  destruct (run_constants indeterminate cs spawned) as [Hurl _]. fold w in Hurl.
  rewrite Login_unfold. destruct (Http (this w)) as [module|].
  - split; [reflexivity|]. split; [discriminate|].
    intros w' [= <-]. eexists. split; [reflexivity|].
    cbn [login_request Verb URL Content OnProcessRequestComplete].
    rewrite Hurl. repeat split.
    unfold FJsonObjectConverter.UStructToJsonObjectString.
    rewrite CodecFacts.encode_request, JsonFacts.write_object.
    cbn [map Json.join Json.write_member fst snd Json.write].
    rewrite !JsonFacts.append_assoc. reflexivity.
  - split; [now intros []|]. split; [reflexivity | discriminate].
Qed.

Lemma Login_dispatches_post_witness :
  returned (Login {| email := "a@b.com"; password := "pw" |}
              (final (run 0 [Call_BeginPlay true] spawned))) = true /\
  Login {| email := "a@b.com"; password := "pw" |}
        (final (run 0 [Call_BeginPlay false] spawned))
  = Faulted (final (run 0 [Call_BeginPlay false] spawned)).
Proof.
  split.
  - apply (proj1 (Login_dispatches_post 0 [Call_BeginPlay true]
                    {| email := "a@b.com"; password := "pw" |})).
    discriminate.
  - apply (proj1 (proj2 (Login_dispatches_post 0 [Call_BeginPlay false]
                           {| email := "a@b.com"; password := "pw" |}))).
    reflexivity.
Defined.

Lemma run_without_success (indeterminate : Z) (cs : list Call) (w : World) :
  Forall (fun c => successful_login_completion c = false) cs ->
  AuthorizationHash (this (final (run indeterminate cs w))) = AuthorizationHash (this w).
Proof.
  intros Hcs. revert w. induction Hcs as [|c cs Hc _ IH]; intros w; [reflexivity|].
  rewrite run_cons.
  assert (Hstep : AuthorizationHash (this (final (call indeterminate c w)))
                  = AuthorizationHash (this w)).
  { rewrite call_this. destruct c as [[|] | creds | req [r|] ok]; try reflexivity.
    cbn [successful_login_completion] in Hc. unfold classified_valid in Hc.
    now rewrite (ResponseIsValid_verdict (Some r) ok w spawned), Hc. }
  destruct (call indeterminate c w) as [[] w'|w']; cbn [final] in Hstep |- *.
  - now rewrite IH.
  - exact Hstep.
Qed.

(** C1. After a login completion whose response is classified valid, the
    stored credential is the [hash] member of the record decoded from the
    response body; as long as no login completion has been valid, it is
    the placeholder ["asdfasdf"] the actor is constructed with. *)
Theorem credential_after_login (indeterminate : Z) :
  (forall (Request : option IHttpRequest) (Response : FHttpResponsePtr)
          (bWasSuccessful : bool) (w : World),
      eval (ResponseIsValid Response bWasSuccessful) w = true ->
      exists r, Response = Some r /\
        AuthorizationHash
          (this (exec (LoginResponse indeterminate Request Response bWasSuccessful) w))
        = hash (eval (GetStructFromJsonString r (FResponse_Login_ctor indeterminate)) w))
  /\
  (forall cs : list Call,
      Forall (fun c => successful_login_completion c = false) cs ->
      AuthorizationHash (this (final (run indeterminate cs spawned))) = "asdfasdf").
Proof.
  split.
  - intros Request Response ok w Hv.
    destruct (ResponseIsValid_true _ _ _ Hv) as (_ & r & -> & _).
    exists r. split; [reflexivity|].
    now rewrite (LoginResponse_valid indeterminate Request r ok w Hv).
  - intros cs Hcs. now rewrite run_without_success.
Qed.

Lemma credential_after_login_witness :
  AuthorizationHash
    (this (final (run 0 [Call_BeginPlay true;
                         Call_LoginResponse None
                           (Some {| GetResponseCode := 200;
                                    GetContentAsString :=
                                      json_text "{'id':1,'name':'Batman','hash':'abcd-1234'}" |})
                           true]
                 spawned)))
  = "abcd-1234" /\
  AuthorizationHash
    (this (final (run 0 [Call_BeginPlay true;
                         Call_LoginResponse None
                           (Some {| GetResponseCode := 500;
                                    GetContentAsString := json_text "{'hash':'x'}" |})
                           true;
                         Call_LoginResponse None None false]
                 spawned)))
  = "asdfasdf".
Proof.
  split.
  - destruct (proj1 (credential_after_login 0) None
                (Some {| GetResponseCode := 200;
                         GetContentAsString :=
                           json_text "{'id':1,'name':'Batman','hash':'abcd-1234'}" |})
                true (final (BeginPlay true spawned)) eq_refl)
      as (r & Hr & Hhash).
    injection Hr as <-. exact Hhash.
  - apply (proj2 (credential_after_login 0)).
    repeat constructor.
Defined.

(** C5. A login completion classified invalid (failed transport, absent
    response, or a status outside 200..299) makes the handler return at
    once: the body is not handed to the JSON decoder and the stored
    credential, with every other data member, is unchanged. *)
Theorem LoginResponse_invalid_returns
    (indeterminate : Z) (Request : option IHttpRequest)
    (Response : FHttpResponsePtr) (bWasSuccessful : bool) (w : World) :
  eval (ResponseIsValid Response bWasSuccessful) w = false ->
  (bWasSuccessful = false \/ Response = None \/
   exists r, Response = Some r /\ ~ 200 <= GetResponseCode r <= 299) /\
  exec (LoginResponse indeterminate Request Response bWasSuccessful) w
    = exec (ResponseIsValid Response bWasSuccessful) w /\
  this (exec (LoginResponse indeterminate Request Response bWasSuccessful) w) = this w /\
  (forall JsonString,
      In (JsonObjectStringToUStruct_call JsonString)
         (trace (exec (LoginResponse indeterminate Request Response bWasSuccessful) w)) ->
      In (JsonObjectStringToUStruct_call JsonString) (trace w)).
Proof.
  intros Hv. rewrite (LoginResponse_invalid indeterminate Request Response _ w Hv).
  rewrite ResponseIsValid_this. unfold eval in Hv. unfold exec.
  rewrite ResponseIsValid_unfold in Hv |- *.
  destruct bWasSuccessful; [|now repeat split; auto].
  destruct Response as [r|]; [|now repeat split; auto].
  pose proof (IsOk_range (GetResponseCode r)) as Hok.
  destruct (EHttpResponseCodes.IsOk (GetResponseCode r)); [discriminate|].
  split; [|split; [reflexivity|split; [reflexivity|]]].
  - right; right. exists r. split; [reflexivity|].
    intros Hin. apply Hok in Hin. discriminate.
  - cbn [snd trace]. intros JsonString Hin.
    apply in_app_or in Hin as [Hin | [Hin | []]]; [exact Hin | discriminate Hin].
Qed.

Lemma LoginResponse_invalid_returns_witness :
  this (exec (LoginResponse 0 None
                (Some {| GetResponseCode := 500;
                         GetContentAsString := json_text "{'hash':'abcd-1234'}" |})
                true) spawned)
  = AHttpService_ctor.
Proof.
  apply (LoginResponse_invalid_returns 0 None
           (Some {| GetResponseCode := 500;
                    GetContentAsString := json_text "{'hash':'abcd-1234'}" |})
           true spawned).
  reflexivity.
Defined.

(** *** Marshalling *)

(** C6. Encoding a record with [GetJsonStringFromStruct] and decoding the
    text with [GetStructFromJsonString] into the same shape gives the
    record back, whatever the output struct held before: for every login
    request, and for every login response whose [id] is a 32-bit value.
    For a record of any reflected shape the encoded text reads back as
    the object holding every member. *)
Theorem encode_decode_round_trip :
  (forall (T : Type) (S : UStruct.UScriptStruct T) (P : T) (w : World),
      Json.read (eval (GetJsonStringFromStruct P) w)
      = Some (Json.JObject (FJsonObjectConverter.UStructToJsonObject P)))
  /\
  (forall (P StructOutput : FRequest_Login) (code : Z) (w w' : World),
      eval (GetStructFromJsonString
              {| GetResponseCode := code;
                 GetContentAsString := eval (GetJsonStringFromStruct P) w |}
              StructOutput) w' = P)
  /\
  (forall (P StructOutput : FResponse_Login) (code : Z) (w w' : World),
      Int32.in_range (id P) ->
      eval (GetStructFromJsonString
              {| GetResponseCode := code;
                 GetContentAsString := eval (GetJsonStringFromStruct P) w |}
              StructOutput) w' = P).
Proof.
  split; [|split].
  - intros T S P w. apply CodecFacts.encode_reads_back.
  - intros P out code w w'.
    change (snd (FJsonObjectConverter.JsonObjectStringToUStruct
                   (FJsonObjectConverter.UStructToJsonObjectString P) out) = P).
    now rewrite CodecFacts.round_trip_request.
  - intros P out code w w' Hid.
    change (snd (FJsonObjectConverter.JsonObjectStringToUStruct
                   (FJsonObjectConverter.UStructToJsonObjectString P) out) = P).
    now rewrite CodecFacts.round_trip_response.
Qed.

Lemma encode_decode_round_trip_witness :
  eval (GetStructFromJsonString
          {| GetResponseCode := 200;
             GetContentAsString :=
               eval (GetJsonStringFromStruct
                       {| id := -7; name := json_text "Bat'\man"; hash := "abcd-1234" |})
                    spawned |}
          (FResponse_Login_ctor 99)) spawned
  = {| id := -7; name := json_text "Bat'\man"; hash := "abcd-1234" |}.
Proof.
  apply (proj2 (proj2 encode_decode_round_trip)
           {| id := -7; name := json_text "Bat'\man"; hash := "abcd-1234" |}
           (FResponse_Login_ctor 99) 200 spawned spawned).
  unfold Int32.in_range, Int32.min_signed, Int32.max_signed. cbn [id]. lia.
Defined.

(** C7. The claim holds for the string members and fails for the [int]
    member: [FResponse_Login() {}] does not initialise [id], so decoding a
    body without an [id] into a freshly declared struct leaves [id] at
    whatever the storage held, not at the default of its type, and
    [LoginResponse] then logs that value.  The body is decoded without
    error and the members it carries are filled. *)
Theorem decode_missing_id_left_uninitialised
    (indeterminate : Z) (code : Z) (Request : option IHttpRequest) (w : World) :
  let r := {| GetResponseCode := code;
              GetContentAsString := json_text "{'name':'Batman','hash':'abcd-1234'}" |} in
  eval (GetStructFromJsonString r (FResponse_Login_ctor indeterminate)) w
  = {| id := indeterminate; name := "Batman"; hash := "abcd-1234" |} /\
  (EHttpResponseCodes.IsOk code = true ->
   In (UE_LOG "Id is: %d" (ArgInt indeterminate))
      (trace (exec (LoginResponse indeterminate Request (Some r) true) w))).
Proof.
  intros r. split; [reflexivity|]. intros Hok.
  assert (Hv : eval (ResponseIsValid (Some r) true) w = true).
  { unfold eval. rewrite ResponseIsValid_unfold. cbn [GetResponseCode r].
    now rewrite Hok. }
  rewrite (LoginResponse_valid indeterminate Request r true w Hv). cbn [trace].
  apply in_or_app. left. apply in_or_app. right. now left.
Qed.

Lemma decode_missing_id_left_uninitialised_witness :
  id (eval (GetStructFromJsonString
              {| GetResponseCode := 200;
                 GetContentAsString := json_text "{'name':'Batman','hash':'abcd-1234'}" |}
              (FResponse_Login_ctor 42)) spawned) = 42 /\
  In (UE_LOG "Id is: %d" (ArgInt 42))
     (trace (exec (LoginResponse 42 None
                     (Some {| GetResponseCode := 200;
                              GetContentAsString :=
                                json_text "{'name':'Batman','hash':'abcd-1234'}" |})
                     true) spawned)).
Proof.
  split.
  - now rewrite (proj1 (decode_missing_id_left_uninitialised 42 200 None spawned)).
  - apply (proj2 (decode_missing_id_left_uninitialised 42 200 None spawned)).
    reflexivity.
Defined.

(** C10. A login completion classified valid whose body carries no string
    member [hash] (the member is absent, is not a string, or the body is
    not a JSON object) still overwrites the stored credential, with the
    empty string: the previous credential is erased, not kept. *)
Theorem login_without_hash_erases_credential
    (indeterminate : Z) (Request : option IHttpRequest) (r : FHttpResponse)
    (bWasSuccessful : bool) (w : World) :
  eval (ResponseIsValid (Some r) bWasSuccessful) w = true ->
  carries_hash (GetContentAsString r) = false ->
  AuthorizationHash
    (this (exec (LoginResponse indeterminate Request (Some r) bWasSuccessful) w))
  = "".
Proof.
  intros Hv Hh. rewrite (LoginResponse_valid indeterminate Request r _ w Hv).
  cbn [this AuthorizationHash]. unfold carries_hash in Hh.
  unfold FJsonObjectConverter.JsonObjectStringToUStruct.
  destruct (Json.read (GetContentAsString r)) as [[| | | | |fields|]|];
    try reflexivity.
  cbn [snd]. rewrite CodecFacts.decode_response_fields. cbn [hash].
  destruct (Json.TryGetField fields "hash") as [[]|];
    (discriminate Hh || reflexivity).
Qed.

Lemma login_without_hash_erases_credential_witness :
  AuthorizationHash (this spawned) = "asdfasdf" /\
  AuthorizationHash
    (this (exec (LoginResponse 0 None
                   (Some {| GetResponseCode := 200;
                            GetContentAsString := json_text "{'id':1,'name':'Batman'}" |})
                   true) spawned))
  = "".
Proof.
  split; [reflexivity|].
  apply (login_without_hash_erases_credential 0 None
           {| GetResponseCode := 200;
              GetContentAsString := json_text "{'id':1,'name':'Batman'}" |}
           true spawned).
  - reflexivity.
  - reflexivity.
Defined.

(** * Further properties of the service *)

(** ** Sequences of calls *)

Lemma sent_requests_app (tr1 tr2 : list Event) :
  sent_requests (tr1 ++ tr2) = sent_requests tr1 ++ sent_requests tr2.
Proof.
  induction tr1 as [|e tr1 IH]; [reflexivity|].
  destruct e; cbn [app sent_requests]; now rewrite IH.
Qed.


(** The requests one public call hands to the transport: the login request
    of its credentials when it returns, none when it faults. *)
Lemma call_sent (indeterminate : Z) (c : Call) (w : World) :
  sent_requests (trace (final (call indeterminate c w)))
  = sent_requests (trace w)
    ++ (if returned (call indeterminate c w)
        then map (login_request (this (final (call indeterminate c w))))
                 (login_credentials [c])
        else []).
Proof.
  destruct c as [[|] | creds | req resp ok]; cbn [call login_credentials].
  - rewrite BeginPlay_unfold. cbn [final returned trace this map].
    now rewrite sent_requests_app.
  - cbn. now rewrite app_nil_r.
  - rewrite Login_unfold. destruct (Http (this w)); cbn [final returned trace this map].
    + now rewrite sent_requests_app.
    + now rewrite app_nil_r.
  - rewrite returned_lift, final_lift. cbn [map]. rewrite app_nil_r.
    destruct (eval (ResponseIsValid resp ok) w) eqn:Hv.
    + destruct (ResponseIsValid_true _ _ _ Hv) as (_ & r & -> & _).
      rewrite (LoginResponse_valid indeterminate req r ok w Hv). cbn [trace].
      rewrite !sent_requests_app. cbn [sent_requests]. now rewrite !app_nil_r.
    + rewrite (LoginResponse_invalid indeterminate req resp ok w Hv).
      unfold exec. rewrite ResponseIsValid_unfold.
      destruct ok, resp as [r|]; try reflexivity.
      destruct (EHttpResponseCodes.IsOk (GetResponseCode r)); [reflexivity|].
      cbn [snd trace]. rewrite sent_requests_app. cbn [sent_requests].
      now rewrite app_nil_r.
Qed.

Lemma login_request_has_shape (s : AHttpService) (creds : FRequest_Login) :
  login_request_shape (ApiBaseUrl s) (AuthorizationHeader s) (login_request s creds).
Proof.
  repeat split.
  - now exists (AuthorizationHash s).
  - now exists creds.
Qed.

(** X1. The credential is that of the last valid login completion: when
    the calls before a valid completion have all returned, then after that
    completion and any further calls none of which is a valid completion,
    the stored credential is the hash decoded from that completion's
    body. *)
Theorem last_valid_login_wins
    (indeterminate : Z) (before after : list Call)
    (Request : option IHttpRequest) (r : FHttpResponse) (bWasSuccessful : bool)
    (w : World) :
  returned (run indeterminate before w) = true ->
  classified_valid (Some r) bWasSuccessful = true ->
  Forall (fun c => successful_login_completion c = false) after ->
  AuthorizationHash
    (this (final (run indeterminate
                    (before ++ Call_LoginResponse Request (Some r) bWasSuccessful
                            :: after) w)))
  = hash (snd (FJsonObjectConverter.JsonObjectStringToUStruct
                 (GetContentAsString r) (FResponse_Login_ctor indeterminate))).
Proof.
  intros Hret Hv Hafter. rewrite run_app.
  destruct (run indeterminate before w) as [[] w1|w1]; [clear Hret | discriminate].
  rewrite run_cons.
  pose proof (call_this indeterminate
                (Call_LoginResponse Request (Some r) bWasSuccessful) w1) as Hstep.
  unfold classified_valid in Hv. cbn iota in Hstep.
  rewrite (ResponseIsValid_verdict (Some r) bWasSuccessful w1 spawned), Hv in Hstep.
  destruct (call indeterminate _ w1) as [[] w2|w2]; cbn [final] in Hstep |- *.
  - now rewrite run_without_success, Hstep.
  - now rewrite Hstep.
Qed.

Lemma last_valid_login_wins_witness :
  AuthorizationHash
    (this (final (run 0
                    ([Call_BeginPlay true;
                      Call_LoginResponse None
                        (Some {| GetResponseCode := 200;
                                 GetContentAsString := json_text "{'hash':'first'}" |})
                        true]
                     ++ Call_LoginResponse None
                          (Some {| GetResponseCode := 201;
                                   GetContentAsString := json_text "{'hash':'second'}" |})
                          true
                     :: [Call_LoginResponse None
                           (Some {| GetResponseCode := 404;
                                    GetContentAsString := json_text "{'hash':'third'}" |})
                           true;
                         Call_Login {| email := "a@b.com"; password := "pw" |}])
                    spawned)))
  = "second".
Proof.
  apply (last_valid_login_wins 0
           [Call_BeginPlay true;
            Call_LoginResponse None
              (Some {| GetResponseCode := 200;
                       GetContentAsString := json_text "{'hash':'first'}" |})
              true]
           [Call_LoginResponse None
              (Some {| GetResponseCode := 404;
                       GetContentAsString := json_text "{'hash':'third'}" |})
              true;
            Call_Login {| email := "a@b.com"; password := "pw" |}]
           None
           {| GetResponseCode := 201;
              GetContentAsString := json_text "{'hash':'second'}" |}
           true spawned).
  - reflexivity.
  - reflexivity.
  - repeat constructor.
Defined.

Lemma run_sent_requests (indeterminate : Z) (cs : list Call) (w : World)
    (Request : IHttpRequest) :
  In Request (sent_requests (trace (final (run indeterminate cs w)))) ->
  In Request (sent_requests (trace w)) \/
  login_request_shape (ApiBaseUrl (this w)) (AuthorizationHeader (this w)) Request.
Proof.
  revert w. induction cs as [|c cs IH]; intros w Hin; [now left|].
  rewrite run_cons in Hin.
  destruct (call_constants indeterminate c w) as [Hb Hh].
  pose proof (call_sent indeterminate c w) as Hsent.
  assert (Hstep : In Request (sent_requests (trace (final (call indeterminate c w)))) ->
                  In Request (sent_requests (trace w)) \/
                  login_request_shape (ApiBaseUrl (this w))
                    (AuthorizationHeader (this w)) Request).
  { rewrite Hsent. intros H. apply in_app_or in H as [H | H]; [now left|]. right.
    destruct (returned (call indeterminate c w)); [|destruct H].
    apply in_map_iff in H as (creds & <- & _).
    rewrite <- Hb, <- Hh. apply login_request_has_shape. }
  destruct (call indeterminate c w) as [[] w'|w']; cbn [final] in *.
  - apply IH in Hin as [Hin | Hshape]; [now apply Hstep|].
    right. now rewrite <- Hb, <- Hh.
  - now apply Hstep.
Qed.

(** X2. Whatever public calls are made on the actor, every request it has
    handed to the transport is a login request: a POST to the base URL
    followed by [user/login], with the completion bound to [LoginResponse],
    the three fixed headers and the authorization header, and the encoding
    of some credentials as its body.  The service never sends a GET. *)
Theorem every_sent_request_is_a_login
    (indeterminate : Z) (cs : list Call) (Request : IHttpRequest) :
  In Request (sent_requests (trace (final (run indeterminate cs spawned)))) ->
  login_request_shape "http://murk.dev/api/" "Authorization" Request /\
  Verb Request <> "GET".
Proof.
  intros Hin. apply run_sent_requests in Hin as [[] | Hshape].
  split; [exact Hshape|]. destruct Hshape as (-> & _). discriminate.
Qed.

Lemma every_sent_request_is_a_login_witness :
  Verb (login_request (this (final (run 0 [Call_BeginPlay true] spawned)))
          {| email := "a@b.com"; password := "pw" |})
  <> "GET".
Proof.
  apply (every_sent_request_is_a_login 0
           [Call_LoginResponse None None false;
            Call_BeginPlay true;
            Call_Login {| email := "a@b.com"; password := "pw" |}]).
  right. left. reflexivity.
Defined.



(** ** Data members *)

Lemma run_Http (indeterminate : Z) (cs : list Call) (w : World) (module : FHttpModule) :
  Http (this w) = Some module ->
  Http (this (final (run indeterminate cs w))) = Some module.
Proof.
  revert w. induction cs as [|c cs IH]; intros w Hset; [exact Hset|].
  rewrite run_cons.
  assert (Hstep : Http (this (final (call indeterminate c w))) = Some module).
  { rewrite call_this. destruct module.
    destruct c as [[|] | creds | req [r|] ok]; try easy.
    now destruct (eval (ResponseIsValid (Some r) ok) w). }
  destruct (call indeterminate c w) as [[] w'|w']; cbn [final] in Hstep |- *;
    [now apply IH | exact Hstep].
Qed.

(** X4. No public call changes the base URL or the name of the
    authorization header, from whatever state the actor starts, and the
    [Http] pointer, once set, stays set; with the pointer set no sequence
    of public calls faults. *)
Theorem public_calls_keep_configuration
    (indeterminate : Z) (cs : list Call) (w : World) :
  ApiBaseUrl (this (final (run indeterminate cs w))) = ApiBaseUrl (this w) /\
  AuthorizationHeader (this (final (run indeterminate cs w)))
    = AuthorizationHeader (this w) /\
  (forall module, Http (this w) = Some module ->
     Http (this (final (run indeterminate cs w))) = Some module /\
     returned (run indeterminate cs w) = true).
Proof.
  destruct (run_constants indeterminate cs w) as [Hb Hh].
  split; [exact Hb|]. split; [exact Hh|].
  intros module Hset. split; [now apply run_Http|].
  clear Hb Hh. revert w Hset. induction cs as [|c cs IH]; intros w Hset; [reflexivity|].
  rewrite run_cons.
  pose proof (run_Http indeterminate [c] w module Hset) as Hstep.
  rewrite run_cons in Hstep.
  assert (Hret : returned (call indeterminate c w) = true).
  { destruct c as [[|] | creds | req resp ok]; cbn [call].
    - now rewrite BeginPlay_unfold.
    - reflexivity.
    - now rewrite Login_unfold, Hset.
    - apply returned_lift. }
  destruct (call indeterminate c w) as [[] w'|w']; [|discriminate].
  apply IH. exact Hstep.
Qed.

Lemma public_calls_keep_configuration_witness :
  returned (run 0 [Call_Login {| email := "a@b.com"; password := "pw" |};
                   Call_LoginResponse None None true;
                   Call_BeginPlay false]
              (final (BeginPlay true spawned)))
  = true.
Proof.
  apply (proj2 (proj2 (public_calls_keep_configuration 0
                         [Call_Login {| email := "a@b.com"; password := "pw" |};
                          Call_LoginResponse None None true;
                          Call_BeginPlay false]
                         (final (BeginPlay true spawned))))
           FHttpModule_Get).
  reflexivity.
Defined.

(** X5. Delivering the same completion twice leaves the actor as
    delivering it once does, whichever requests the two deliveries name. *)
Theorem LoginResponse_idempotent
    (indeterminate : Z) (Request Request' : option IHttpRequest)
    (Response : FHttpResponsePtr) (bWasSuccessful : bool) (w : World) :
  this (exec (LoginResponse indeterminate Request' Response bWasSuccessful)
          (exec (LoginResponse indeterminate Request Response bWasSuccessful) w))
  = this (exec (LoginResponse indeterminate Request Response bWasSuccessful) w).
Proof.
  set (w1 := exec (LoginResponse indeterminate Request Response bWasSuccessful) w).
  destruct (eval (ResponseIsValid Response bWasSuccessful) w) eqn:Hv.
  - pose proof Hv as Hv1.
    rewrite (ResponseIsValid_verdict _ _ w w1) in Hv1.
    destruct (ResponseIsValid_true _ _ _ Hv) as (_ & r & -> & _).
    rewrite (LoginResponse_valid indeterminate Request' r _ w1 Hv1).
    subst w1. now rewrite (LoginResponse_valid indeterminate Request r _ w Hv).
  - pose proof Hv as Hv1.
    rewrite (ResponseIsValid_verdict _ _ w w1) in Hv1.
    now rewrite (LoginResponse_invalid indeterminate Request' _ _ w1 Hv1),
      ResponseIsValid_this.
Qed.

(** ** Requests *)

(** X6. Whatever name is configured for the authorization header, a built
    request carries the stored credential under that name, because that
    header is set last; under every other name the request has what the
    three fixed headers give, so a fixed header whose name is the
    configured one is overwritten, and there is no header beyond these. *)
Theorem built_request_headers_any_name
    (b : Builder) (w w' : World) (Request : IHttpRequest) :
  build b w = Returned Request w' ->
  let header := AuthorizationHeader (this w) in
  Headers Request !! header = Some (AuthorizationHash (this w)) /\
  (forall k, k <> header -> Headers Request !! k = fixed_headers !! k) /\
  dom (Headers Request)
    = ({["User-Agent"; "Content-Type"; "Accepts"]} ∪ {[header]} : gset string).
Proof.
  intros Hb header. subst header. apply build_returned in Hb as (_ & -> & _).
  apply built_headers_lookup.
Qed.

Lemma built_request_headers_any_name_witness :
  exists Request : IHttpRequest,
    build (Build_GetRequest "scores")
          {| this := {| Http := Some FHttpModule_Get;
                        ApiBaseUrl := "http://murk.dev/api/";
                        AuthorizationHeader := "User-Agent";
                        AuthorizationHash := "abcd-1234" |};
             trace := [] |}
    = Returned Request
        {| this := {| Http := Some FHttpModule_Get;
                      ApiBaseUrl := "http://murk.dev/api/";
                      AuthorizationHeader := "User-Agent";
                      AuthorizationHash := "abcd-1234" |};
           trace := [] |} /\
    Headers Request !! "User-Agent" = Some "abcd-1234".
Proof.
  eexists. split; [reflexivity|].
  apply (built_request_headers_any_name (Build_GetRequest "scores")
           {| this := {| Http := Some FHttpModule_Get;
                         ApiBaseUrl := "http://murk.dev/api/";
                         AuthorizationHeader := "User-Agent";
                         AuthorizationHash := "abcd-1234" |};
              trace := [] |}
           {| this := {| Http := Some FHttpModule_Get;
                         ApiBaseUrl := "http://murk.dev/api/";
                         AuthorizationHeader := "User-Agent";
                         AuthorizationHash := "abcd-1234" |};
              trace := [] |}).
  reflexivity.
Defined.

(** X7. A valid login completion takes effect on the next request: every
    request built afterwards carries, under the authorization header, the
    hash decoded from the completion's body. *)
Theorem built_after_login_carries_hash
    (indeterminate : Z) (Request : option IHttpRequest) (r : FHttpResponse)
    (bWasSuccessful : bool) (w : World) (b : Builder)
    (Built : IHttpRequest) (w'' : World) :
  eval (ResponseIsValid (Some r) bWasSuccessful) w = true ->
  build b (exec (LoginResponse indeterminate Request (Some r) bWasSuccessful) w)
  = Returned Built w'' ->
  Headers Built !! AuthorizationHeader (this w)
  = Some (hash (snd (FJsonObjectConverter.JsonObjectStringToUStruct
                       (GetContentAsString r)
                       (FResponse_Login_ctor indeterminate)))).
Proof.
  intros Hv Hb. apply build_returned in Hb as (_ & -> & _).
  rewrite (LoginResponse_valid indeterminate Request r _ w Hv). cbn [this].
  apply (built_headers_lookup
           {| Http := Http (this w);
              ApiBaseUrl := ApiBaseUrl (this w);
              AuthorizationHeader := AuthorizationHeader (this w);
              AuthorizationHash := _ |}).
Qed.

Lemma built_after_login_carries_hash_witness :
  exists Built : IHttpRequest,
    build (Build_GetRequest "profile")
      (exec (LoginResponse 0 None
               (Some {| GetResponseCode := 200;
                        GetContentAsString :=
                          json_text "{'id':1,'name':'Batman','hash':'abcd-1234'}" |})
               true) (final (BeginPlay true spawned)))
    = Returned Built
        (exec (LoginResponse 0 None
                 (Some {| GetResponseCode := 200;
                          GetContentAsString :=
                            json_text "{'id':1,'name':'Batman','hash':'abcd-1234'}" |})
                 true) (final (BeginPlay true spawned))) /\
    Headers Built !! "Authorization" = Some "abcd-1234".
Proof.
  eexists. split; [reflexivity|].
  eapply (built_after_login_carries_hash 0 None
            {| GetResponseCode := 200;
               GetContentAsString :=
                 json_text "{'id':1,'name':'Batman','hash':'abcd-1234'}" |}
            true (final (BeginPlay true spawned)) (Build_GetRequest "profile")).
  - reflexivity.
  - reflexivity.
Defined.

(** ** Completions *)

(** X8. Only a valid login completion changes the credential, and only a
    [BeginPlay] with authority changes the [Http] pointer: calls of
    [BeginPlay] and [Login] and completions classified invalid, in any
    number and order and from any state, leave the credential, the base
    URL and the header name as they were, and when none of them is a
    [BeginPlay] with authority they leave every data member as it was. *)
Theorem only_valid_login_changes_actor
    (indeterminate : Z) (cs : list Call) (w : World) :
  Forall (fun c => successful_login_completion c = false) cs ->
  AuthorizationHash (this (final (run indeterminate cs w))) = AuthorizationHash (this w) /\
  ApiBaseUrl (this (final (run indeterminate cs w))) = ApiBaseUrl (this w) /\
  AuthorizationHeader (this (final (run indeterminate cs w)))
    = AuthorizationHeader (this w) /\
  (Forall (fun c => c <> Call_BeginPlay true) cs ->
   this (final (run indeterminate cs w)) = this w).
Proof.
  intros Hcs. split; [now apply run_without_success|].
  destruct (run_constants indeterminate cs w) as [Hb Hh].
  split; [exact Hb|]. split; [exact Hh|]. clear Hb Hh.
  intros Hno. revert w. induction Hcs as [|c cs Hc Hcs IH]; intros w; [reflexivity|].
  inversion Hno as [|? ? Hnc Hno']; subst. rewrite run_cons.
  assert (Hstep : this (final (call indeterminate c w)) = this w).
  { rewrite call_this. destruct c as [[|] | creds | req [r|] ok]; try reflexivity.
    - now destruct Hnc.
    - cbn [successful_login_completion] in Hc. unfold classified_valid in Hc.
      now rewrite (ResponseIsValid_verdict (Some r) ok w spawned), Hc. }
  destruct (call indeterminate c w) as [[] w'|w']; cbn [final] in Hstep |- *.
  - now rewrite (IH Hno' w').
  - exact Hstep.
Qed.

Lemma only_valid_login_changes_actor_witness :
  this (final (run 0 [Call_BeginPlay false;
                      Call_Login {| email := "a@b.com"; password := "pw" |};
                      Call_LoginResponse None
                        (Some {| GetResponseCode := 500;
                                 GetContentAsString := json_text "{'hash':'x'}" |})
                        true;
                      Call_LoginResponse None None true]
                 {| this := {| Http := Some FHttpModule_Get;
                               ApiBaseUrl := "http://murk.dev/api/";
                               AuthorizationHeader := "X-Auth-Token";
                               AuthorizationHash := "abcd-1234" |};
                    trace := [] |}))
  = {| Http := Some FHttpModule_Get;
       ApiBaseUrl := "http://murk.dev/api/";
       AuthorizationHeader := "X-Auth-Token";
       AuthorizationHash := "abcd-1234" |}.
Proof.
  apply (only_valid_login_changes_actor 0
           [Call_BeginPlay false;
            Call_Login {| email := "a@b.com"; password := "pw" |};
            Call_LoginResponse None
              (Some {| GetResponseCode := 500;
                       GetContentAsString := json_text "{'hash':'x'}" |})
              true;
            Call_LoginResponse None None true]).
  - repeat constructor.
  - repeat constructor; discriminate.
Defined.

(** X9. A valid login completion whose body is a JSON object with a string
    member [hash] stores exactly that string as the credential, whatever
    the other members of the body are. *)
Theorem login_with_hash_sets_credential
    (indeterminate : Z) (Request : option IHttpRequest) (r : FHttpResponse)
    (bWasSuccessful : bool) (w : World)
    (fields : list (string * Json.FJsonValue)) (h : string) :
  eval (ResponseIsValid (Some r) bWasSuccessful) w = true ->
  Json.read (GetContentAsString r) = Some (Json.JObject fields) ->
  Json.TryGetField fields "hash" = Some (Json.JString h) ->
  AuthorizationHash
    (this (exec (LoginResponse indeterminate Request (Some r) bWasSuccessful) w))
  = h.
Proof.
  intros Hv Hread Hh. rewrite (LoginResponse_valid indeterminate Request r _ w Hv).
  cbn [this AuthorizationHash].
  unfold FJsonObjectConverter.JsonObjectStringToUStruct. rewrite Hread. cbn [snd].
  rewrite CodecFacts.decode_response_fields. cbn [hash]. now rewrite Hh.
Qed.

Lemma login_with_hash_sets_credential_witness :
  AuthorizationHash
    (this (exec (LoginResponse 0 None
                   (Some {| GetResponseCode := 204;
                            GetContentAsString :=
                              json_text "{'id':'seven','hash':'abcd-1234','score':12.5,'tags':[1e3,null]}" |})
                   true) spawned))
  = "abcd-1234".
Proof.
  apply (login_with_hash_sets_credential 0 None
           {| GetResponseCode := 204;
              GetContentAsString :=
                json_text "{'id':'seven','hash':'abcd-1234','score':12.5,'tags':[1e3,null]}" |}
           true spawned
           [("id", Json.JString "seven"); ("hash", Json.JString "abcd-1234");
            ("score", Json.JDecimal 125 (-1));
            ("tags", Json.JArray [Json.JDecimal 1 3; Json.JNull])]).
  - reflexivity.
  - reflexivity.
  - reflexivity.
Defined.

(** X10. On every valid completion the handler decodes the body once and
    then logs the id and the name of the decoded record, in that order.
    When the body is an object without a member [id], or is not a JSON
    object at all, the id it logs is the value the uninitialised [int]
    member of the freshly declared struct held. *)
Theorem login_without_id_logs_indeterminate
    (indeterminate : Z) (Request : option IHttpRequest) (r : FHttpResponse)
    (bWasSuccessful : bool) (w : World) :
  eval (ResponseIsValid (Some r) bWasSuccessful) w = true ->
  let decoded :=
    snd (FJsonObjectConverter.JsonObjectStringToUStruct
           (GetContentAsString r) (FResponse_Login_ctor indeterminate)) in
  trace (exec (LoginResponse indeterminate Request (Some r) bWasSuccessful) w)
  = trace w ++
      [JsonObjectStringToUStruct_call (GetContentAsString r);
       UE_LOG "Id is: %d" (ArgInt (id decoded));
       UE_LOG "Name is: %s" (ArgStr (name decoded))] /\
  (forall fields,
      Json.read (GetContentAsString r) = Some (Json.JObject fields) ->
      Json.TryGetField fields "id" = None ->
      id decoded = indeterminate) /\
  ((forall fields, Json.read (GetContentAsString r) <> Some (Json.JObject fields)) ->
   id decoded = indeterminate).
Proof.
  intros Hv decoded. split; [|split].
  - rewrite (LoginResponse_valid indeterminate Request r _ w Hv). cbn [trace].
    now rewrite <- !app_assoc.
  - intros fields Hread Hid. subst decoded.
    unfold FJsonObjectConverter.JsonObjectStringToUStruct. rewrite Hread. cbn [snd].
    rewrite CodecFacts.decode_response_fields. cbn [id]. now rewrite Hid.
  - intros Hno. subst decoded. now rewrite CodecFacts.decode_malformed.
Qed.

Lemma login_without_id_logs_indeterminate_witness :
  trace (exec (LoginResponse 42 None
                 (Some {| GetResponseCode := 200;
                          GetContentAsString :=
                            json_text "{'id':7,'name':'Batman','hash':'abcd-1234'}" |})
                 true) spawned)
  = [JsonObjectStringToUStruct_call
       (json_text "{'id':7,'name':'Batman','hash':'abcd-1234'}");
     UE_LOG "Id is: %d" (ArgInt 7);
     UE_LOG "Name is: %s" (ArgStr "Batman")] /\
  id (snd (FJsonObjectConverter.JsonObjectStringToUStruct
             (json_text "{'name':'Batman'}") (FResponse_Login_ctor 42)))
  = 42.
Proof.
  split.
  - apply (login_without_id_logs_indeterminate 42 None
             {| GetResponseCode := 200;
                GetContentAsString :=
                  json_text "{'id':7,'name':'Batman','hash':'abcd-1234'}" |}
             true spawned).
    reflexivity.
  - apply (proj1 (proj2 (login_without_id_logs_indeterminate 42 None
                           {| GetResponseCode := 200;
                              GetContentAsString := json_text "{'name':'Batman'}" |}
                           true spawned eq_refl))
             [("name", Json.JString "Batman")]).
    + reflexivity.
    + reflexivity.
Defined.

(** ** Marshalling into a struct that is already filled *)

(** X11. [GetStructFromJsonString] fills its output struct in place: a
    member the JSON object does not carry keeps what the output struct
    held before the call, and a body that is not a JSON object leaves the
    whole struct as it was; no error is raised either way.  For the
    freshly declared login response the string members are then empty, so
    [{"id":1,"name":"Batman"}] decodes to id 1, name "Batman" and the
    empty hash. *)
Theorem decode_missing_members
    (indeterminate : Z) :
  (forall (r : FHttpResponse) (StructOutput : FResponse_Login) (w : World)
          (fields : list (string * Json.FJsonValue)),
      Json.read (GetContentAsString r) = Some (Json.JObject fields) ->
      let decoded := eval (GetStructFromJsonString r StructOutput) w in
      fst (FJsonObjectConverter.JsonObjectStringToUStruct
             (GetContentAsString r) StructOutput) = true /\
      (Json.TryGetField fields "id" = None -> id decoded = id StructOutput) /\
      (Json.TryGetField fields "name" = None -> name decoded = name StructOutput) /\
      (Json.TryGetField fields "hash" = None -> hash decoded = hash StructOutput))
  /\
  (forall (r : FHttpResponse) (StructOutput : FResponse_Login) (w : World),
      (forall fields, Json.read (GetContentAsString r) <> Some (Json.JObject fields)) ->
      eval (GetStructFromJsonString r StructOutput) w = StructOutput)
  /\
  name (FResponse_Login_ctor indeterminate) = "" /\
  hash (FResponse_Login_ctor indeterminate) = "" /\
  (forall (code : Z) (w : World),
      eval (GetStructFromJsonString
              {| GetResponseCode := code;
                 GetContentAsString := json_text "{'id':1,'name':'Batman'}" |}
              (FResponse_Login_ctor indeterminate)) w
      = {| id := 1; name := "Batman"; hash := "" |}).
Proof.
  split; [|split; [|repeat split]].
  - intros r out w fields Hread decoded. subst decoded.
    change (eval (GetStructFromJsonString r out) w)
      with (snd (FJsonObjectConverter.JsonObjectStringToUStruct
                   (GetContentAsString r) out)).
    unfold FJsonObjectConverter.JsonObjectStringToUStruct. rewrite Hread.
    cbn [fst snd]. rewrite CodecFacts.decode_response_fields. cbn [id name hash].
    split; [reflexivity|].
    split; [|split]; now intros ->.
  - intros r out w Hno.
    change (eval (GetStructFromJsonString r out) w)
      with (snd (FJsonObjectConverter.JsonObjectStringToUStruct
                   (GetContentAsString r) out)).
    now rewrite CodecFacts.decode_malformed.
Qed.

Lemma decode_missing_members_witness :
  hash (eval (GetStructFromJsonString
                {| GetResponseCode := 200;
                   GetContentAsString := json_text "{'id':1,'name':'Batman'}" |}
                {| id := 9; name := "Robin"; hash := "old" |}) spawned)
  = "old" /\
  eval (GetStructFromJsonString
          {| GetResponseCode := 200; GetContentAsString := "<html>" |}
          {| id := 9; name := "Robin"; hash := "old" |}) spawned
  = {| id := 9; name := "Robin"; hash := "old" |}.
Proof.
  split.
  - apply (proj1 (decode_missing_members 0)
             {| GetResponseCode := 200;
                GetContentAsString := json_text "{'id':1,'name':'Batman'}" |}
             {| id := 9; name := "Robin"; hash := "old" |} spawned
             [("id", Json.JNumber 1); ("name", Json.JString "Batman")]).
    + reflexivity.
    + reflexivity.
  - apply (proj1 (proj2 (decode_missing_members 0))
             {| GetResponseCode := 200; GetContentAsString := "<html>" |}
             {| id := 9; name := "Robin"; hash := "old" |} spawned).
    intros fields. discriminate.
Defined.
